(** * ud-co2s-server: the serial reader and the [/data] endpoint of [main.go]

    A shallow embedding of [main.go].  Go strings are byte strings and are
    modelled by [string] (a list of 8-bit [ascii]); [int64] is [Z] with the
    saturation [strconv.ParseInt] performs written out; [float64] is the
    kernel's binary64 [float], whose operations are the IEEE-754 ones.
    Functions of Go's standard library that the program calls ([regexp],
    [strconv], [time.Time.Format], [encoding/json], [net/http]) are modelled
    after their documented behaviour, next to the place that calls them;
    [math.Pow] is a parameter. *)

From Stdlib Require Import ZArith List String Ascii Bool Lia PeanoNat.
From Stdlib Require Import Floats.
Import ListNotations.

#[local] Open Scope string_scope.
#[local] Open Scope Z_scope.
#[local] Set Warnings "-inexact-float".

(** ** Byte strings *)

Module Bytes.

Definition byte_in (lo hi c : ascii) : bool :=
  (N.leb (N_of_ascii lo) (N_of_ascii c) && N.leb (N_of_ascii c) (N_of_ascii hi))%bool.

Definition is_digit (c : ascii) : bool := byte_in "0" "9" c.

(** [len(s)] *)
Definition len (s : string) : Z := Z.of_nat (String.length s).

(** [strings.HasPrefix], also what [s[:len(p)] == p] computes when the
    slice is in range. *)
Fixpoint cut_prefix (p s : string) : option string :=
  match p with
  | EmptyString => Some s
  | String a p' =>
      match s with
      | EmptyString => None
      | String b s' => if Ascii.eqb a b then cut_prefix p' s' else None
      end
  end.

Fixpoint take (n : nat) (s : string) : string :=
  match n, s with
  | S k, String a s' => String a (take k s')
  | _, _ => EmptyString
  end.

(** The slice expression [s[:n]]: a run-time panic (slice bounds out of
    range) when [n > len(s)]. *)
Definition slice_to (s : string) (n : nat) : option string :=
  if (n <=? String.length s)%nat then Some (take n s) else None.

Fixpoint all_bytes (p : ascii -> bool) (s : string) : bool :=
  match s with
  | EmptyString => true
  | String a s' => (p a && all_bytes p s')%bool
  end.

Fixpoint repeat_byte (c : ascii) (n : nat) : string :=
  match n with
  | O => EmptyString
  | S k => String c (repeat_byte c k)
  end.

(** The line terminators ["\r\n"] and ["\n"]. *)
Definition LF : string := String "010" EmptyString.
Definition CRLF : string := String "013" LF.

End Bytes.
Import Bytes.

(** ** [regexp]: the one pattern of the program

    The pattern is a sequence of literals and capturing groups, each group a
    greedy one-or-more repetition of a byte class.  [match_here] is the
    backtracking matcher with Go's leftmost-first preference: a group first
    tries to take one more byte, and gives bytes back when the rest of the
    pattern fails.  All bytes of the pattern are ASCII, so matching bytes is
    matching runes. *)

Module Regexp.

Inductive node : Type :=
| Lit (s : string)
| Group (cls : ascii -> bool).

Definition regexp : Type := list node.

(** What a successful match leaves: the captures of the groups still to
    come, in order, and the text after the match. *)
Definition tail_match : Type := option (list string * string).

(** A greedy group [(cls+)] followed by the rest of the pattern [k]: [acc]
    is what the group holds already. *)
Fixpoint plus (cls : ascii -> bool) (k : string -> tail_match)
    (acc s : string) {struct s} : tail_match :=
  match s with
  | EmptyString => None
  | String a s' =>
      if cls a then
        let acc' := acc ++ String a EmptyString in
        match plus cls k acc' s' with
        | Some res => Some res
        | None =>
            match k s' with
            | Some (caps, rest) => Some (acc' :: caps, rest)
            | None => None
            end
        end
      else None
  end.

Fixpoint match_here (r : regexp) (s : string) : tail_match :=
  match r with
  | [] => Some ([], s)
  | Lit l :: r' =>
      match cut_prefix l s with
      | Some s' => match_here r' s'
      | None => None
      end
  | Group cls :: r' => plus cls (match_here r') EmptyString s
  end.

(** One match as [FindStringSubmatch] reports it: the matched text, then
    the text of each group. *)
Definition submatch_at (r : regexp) (s : string) : option (list string * nat) :=
  match match_here r s with
  | Some (caps, rest) =>
      let w := (String.length s - String.length rest)%nat in
      Some (take w s :: caps, w)
  | None => None
  end.

(** [re.FindAllStringSubmatch(text, -1)]: the successive non-overlapping
    matches, leftmost first.  [skip] counts the bytes of the previous match
    still to step over.  (The pattern of the program never matches the
    empty string, so Go's rule for empty matches plays no part.) *)
Fixpoint find_all (r : regexp) (skip : nat) (s : string) : list (list string) :=
  match skip with
  | S k =>
      match s with
      | EmptyString => []
      | String _ s' => find_all r k s'
      end
  | O =>
      match submatch_at r s with
      | Some (m, w) =>
          m :: match s with
               | EmptyString => []
               | String _ s' => find_all r (Nat.pred w) s'
               end
      | None =>
          match s with
          | EmptyString => []
          | String _ s' => find_all r O s'
          end
      end
  end.

Definition FindAllStringSubmatch (r : regexp) (text : string) : list (list string) :=
  find_all r O text.

(** The text does not begin with a byte of the class: a greedy group stops
    in front of it. *)
Definition stops (cls : ascii -> bool) (s : string) : bool :=
  match s with
  | EmptyString => true
  | String c _ => negb (cls c)
  end.

(** The number of capturing groups. *)
Definition groups (r : regexp) : nat :=
  List.length (filter (fun n => match n with Group _ => true | Lit _ => false end) r).

End Regexp.
Import Regexp.

(** ** [strconv] *)

Module Strconv.

Inductive NumError : Type := ErrSyntax | ErrRange.

Definition maxUint64 : Z := 2 ^ 64 - 1.

Definition digit_val (c : ascii) : Z := Z.of_N (N_of_ascii c) - 48.

(** The digit loop of [ParseUint(s, 10, 64)]: it returns at the first byte
    that is not a decimal digit, and at the first overflow. *)
Fixpoint parse_uint_loop (s : string) (n : Z) : Z * option NumError :=
  match s with
  | EmptyString => (n, None)
  | String c s' =>
      if is_digit c then
        if n >=? maxUint64 / 10 + 1 then (maxUint64, Some ErrRange)
        else
          let n1 := n * 10 + digit_val c in
          if n1 >? maxUint64 then (maxUint64, Some ErrRange)
          else parse_uint_loop s' n1
      else (0, Some ErrSyntax)
  end.

Definition ParseUint (s : string) : Z * option NumError :=
  match s with
  | EmptyString => (0, Some ErrSyntax)
  | _ => parse_uint_loop s 0
  end.

(** [ParseInt(s, 10, 64)] *)
Definition ParseInt (s : string) : Z * option NumError :=
  match s with
  | EmptyString => (0, Some ErrSyntax)
  | String c0 s1 =>
      let neg := Ascii.eqb c0 "-" in
      let body := if (Ascii.eqb c0 "+" || neg)%bool then s1 else s in
      match ParseUint body with
      | (_, Some ErrSyntax) => (0, Some ErrSyntax)
      | (un, _) =>
          let cutoff := 2 ^ 63 in
          if (negb neg && (un >=? cutoff))%bool then (cutoff - 1, Some ErrRange)
          else if (neg && (un >? cutoff))%bool then (- cutoff, Some ErrRange)
          else (if neg then - un else un, None)
      end
  end.

(** *** [ParseFloat(s, 64)], decimal notation

    The model covers decimal numbers without exponent: an optional sign,
    digits, at most one point.  The capture groups of the program's pattern
    hold only bytes of [[0-9.-]] ([decode_first_match] below), where an
    exponent, a hexadecimal prefix, an underscore, "inf" or "nan" cannot
    occur; on a string with another byte the model answers with a syntax
    error, which is not always what Go answers. *)

(** What [readFloat] has seen so far: the digits read as a number, how many
    of them follow the point, and whether a point and a digit were seen. *)
Record scan : Type := mkScan
  { mant : Z; frac_digits : Z; sawdot : bool; sawdigits : bool }.

Fixpoint read_digits (s : string) (st : scan) : scan * string :=
  match s with
  | EmptyString => (st, s)
  | String c s' =>
      if Ascii.eqb c "." then
        if sawdot st then (st, s)
        else read_digits s' (mkScan (mant st) (frac_digits st) true (sawdigits st))
      else if is_digit c then
        read_digits s'
          (mkScan (mant st * 10 + digit_val c)
                  (if sawdot st then frac_digits st + 1 else frac_digits st)
                  (sawdot st) true)
      else (st, s)
  end.

Definition prec : Z := 53.
Definition emax : Z := 1024.

(** The binary64 number nearest to [m / 10^k] ([m > 0], [k >= 0]), ties to
    even: the rounding [ParseFloat] documents. *)
Definition nearest_decimal (m : positive) (k : Z) : spec_float :=
  match k with
  | Zpos p => SFdiv prec emax (S754_finite false m 0)
                    (S754_finite false (Z.to_pos (10 ^ Zpos p)) 0)
  | _ => binary_normalize prec emax (Zpos m) 0 false
  end.

Definition ParseFloat (s : string) : float * option NumError :=
  let '(neg, body) :=
    match s with
    | String c s1 =>
        if Ascii.eqb c "-" then (true, s1)
        else if Ascii.eqb c "+" then (false, s1)
        else (false, s)
    | EmptyString => (false, s)
    end in
  let '(st, rest) := read_digits body (mkScan 0 0 false false) in
  if negb (sawdigits st) then (0%float, Some ErrSyntax)
  else
    match rest with
    | String _ _ => (0%float, Some ErrSyntax)
    | EmptyString =>
        let v :=
          match mant st with
          | Zpos m => SF2Prim (nearest_decimal m (frac_digits st))
          | _ => 0%float
          end in
        let v := if neg then (- v)%float else v in
        if is_infinity v then (v, Some ErrRange) else (v, None)
    end.

(** The number a string of decimal digits denotes, after the digits [n]. *)
Fixpoint decimal (s : string) (n : Z) : Z :=
  match s with
  | EmptyString => n
  | String c s' => decimal s' (n * 10 + digit_val c)
  end.

End Strconv.
Import Strconv.

(** ** The data of the program *)

(** [time.Time]: an instant (seconds and nanoseconds since the Unix epoch)
    and the offset of its zone at that instant, in seconds east of UTC. *)
Record Time : Type := mkTime { unixSec : Z; nsec : Z; zoneOffset : Z }.

(** [type ISO8601Time time.Time] *)
Definition ISO8601Time : Type := Time.

Record Data : Type := mkData
  { CO2 : Z;
    Humidity : float;
    Temperature : float;
    Timestamp : ISO8601Time }.

(** ** Compensation *)

Definition correctTemperature (t : float) : float := (t - 4.5)%float.

Section Compensation.

(** [math.Pow] *)
Variable Pow : float -> float -> float.

Definition correctHumidity (h t : float) : float :=
  let t1 := correctTemperature t in
  (h * Pow 10 (7.5 * t / (t + 237.3)) / Pow 10 (7.5 * t1 / (t1 + 237.3)))%float.

(** ** One line of the stream (the body of the [scan] loop) *)

Definition cls_hum (c : ascii) : bool := (is_digit c || Ascii.eqb c ".")%bool.
Definition cls_tmp (c : ascii) : bool :=
  (is_digit c || Ascii.eqb c "." || Ascii.eqb c "-")%bool.

(** [regexp.MustCompile(`CO2=(\d+),HUM=([0-9\.]+),TMP=([0-9\.-]+)`)] *)
Definition re : regexp :=
  [Lit "CO2="; Group is_digit; Lit ",HUM="; Group cls_hum; Lit ",TMP="; Group cls_tmp].

Inductive panic : Type :=
| SliceBounds (high length : nat)
| IndexRange (index length : nat).

(** [m[i]] *)
Definition index {A : Type} (l : list A) (i : nat) : A + panic :=
  match nth_error l i with
  | Some x => inl x
  | None => inr (IndexRange i (List.length l))
  end.

(** What one iteration of the loop does with the line it has read. *)
Inductive decoded : Type :=
| Reading (d : Data)      (* [latest = &Data{...}] *)
| StopAcknowledged        (* [break // exit 0] *)
| Unmatched               (* [log.Printf("Read unmatched string: ...")] *)
| Panics (p : panic).

Definition decode (now : Time) (text : string) : decoded :=
  match FindAllStringSubmatch re text with
  | m0 :: _ =>
      match index m0 1, index m0 2, index m0 3 with
      | inl s1, inl s2, inl s3 =>
          let co2 := fst (ParseInt s1) in
          let h := fst (ParseFloat s2) in
          let t := fst (ParseFloat s3) in
          Reading (mkData co2 (correctHumidity h t) (correctTemperature t) now)
      | inr p, _, _ | _, inr p, _ | _, _, inr p => Panics p
      end
  | [] =>
      match slice_to text 6 with
      | None => Panics (SliceBounds 6 (String.length text))
      | Some p => if String.eqb p "OK STP" then StopAcknowledged else Unmatched
      end
  end.

(** The [Data] the loop builds from the three captures. *)
Definition reading_of (now : Time) (c h t : string) : Data :=
  mkData (fst (ParseInt c))
         (correctHumidity (fst (ParseFloat h)) (fst (ParseFloat t)))
         (correctTemperature (fst (ParseFloat t)))
         now.

End Compensation.

(** ** The serial port, the scanner and what the reader goroutine does

    The environment of one run: the lines the scanner will deliver, each with
    what [ctx.Done()] and [time.Now()] give when the line is looked at;
    whether the scanner stops on an error ([s.Err() != nil]) rather than at
    the end of the input; and the results of the successive [port.Write]s.
    A run returns the events it performed, in program order. *)

Record incoming : Type := mkLine { text : string; done : bool; now : Time }.

Record world : Type := mkWorld
  { open_fails : bool;
    lines : list incoming;
    scan_fails : bool;
    write_results : list bool (* [true]: the write succeeds; all succeed once the list is used up *) }.

Inductive event : Type :=
| SetReadTimeout (ms : Z)
| Logged (msg : string)
| Wrote (bytes : string) (ok : bool)
| Slept (ms : Z)
| Scanned (line : string)   (* [s.Scan()] returned [true] *)
| ScanStopped               (* [s.Scan()] returned [false] *)
| Stored (d : Data)         (* [latest = &Data{...}] *)
| Closed.

Inductive error : Type :=
| ErrOpen                        (* "failed to open port: ..." *)
| ErrWrite                       (* the error of [p.Write] *)
| ErrContextCanceled             (* "context canceled" *)
| ErrCommandFailed (c : string)  (* " command `c` failed" *)
| ErrScanner.                    (* "scanner error: ..." *)

(** How a function that returns [error] ends. *)
Inductive outcome : Type :=
| Return (err : option error)
| Panicked (p : panic).

Definition with_lines (w : world) (ls : list incoming) : world :=
  mkWorld (open_fails w) ls (scan_fails w) (write_results w).

(** [port.Write(bytes)] *)
Definition port_write (bytes : string) (w : world) : bool * world * list event :=
  match write_results w with
  | [] => (true, w, [Wrote bytes true])
  | ok :: rs => (ok, mkWorld (open_fails w) (lines w) (scan_fails w) rs, [Wrote bytes ok])
  end.

(** *** [prepareDevice] *)

Inductive reply : Type :=
| GotOK | GotNG | SawCanceled | NoMoreLines | ReplyPanics (p : panic).

(** The inner loop [for s.Scan() { ... }] of [prepareDevice]. *)
Fixpoint await_reply (ls : list incoming) : reply * list incoming * list event :=
  match ls with
  | [] => (NoMoreLines, [], [ScanStopped])
  | l :: ls' =>
      if done l then (SawCanceled, ls', [Scanned (text l)])
      else
        match slice_to (text l) 2 with
        | None =>
            (ReplyPanics (SliceBounds 2 (String.length (text l))), ls', [Scanned (text l)])
        | Some p =>
            if String.eqb p "OK" then (GotOK, ls', [Scanned (text l)])
            else if String.eqb p "NG" then (GotNG, ls', [Scanned (text l)])
            else
              let '(r, rest, ev) := await_reply ls' in
              (r, rest, Scanned (text l) :: ev)
        end
  end.

(** The outer loop [for _, c := range cmds { ... }]. *)
Fixpoint send_commands (cmds : list string) (w : world) : outcome * world * list event :=
  match cmds with
  | [] => (Return None, w, [Logged " OK."])
  | c :: cmds' =>
      let '(ok, w1, ev_w) := port_write (c ++ CRLF) w in
      let ev1 := Logged (" " ++ c) :: ev_w in
      if negb ok then (Return (Some ErrWrite), w1, ev1)
      else
        let '(r, rest, ev_r) := await_reply (lines w1) in
        let w2 := with_lines w1 rest in
        let ev := (ev1 ++ Slept 100 :: ev_r)%list in
        match r with
        | GotOK | NoMoreLines =>
            let '(o, w3, ev') := send_commands cmds' w2 in (o, w3, (ev ++ ev')%list)
        | GotNG => (Return (Some (ErrCommandFailed c)), w2, ev)
        | SawCanceled => (Return (Some ErrContextCanceled), w2, ev)
        | ReplyPanics p => (Panicked p, w2, ev)
        end
  end.

Definition commands : list string := ["STP"; "ID?"; "STA"].

Definition prepareDevice (w : world) : outcome * world * list event :=
  let '(o, w', ev) := send_commands commands w in
  (o, w', Logged "Prepare device...:" :: ev).

Section Reader.

Variable Pow : float -> float -> float.

(** *** The [scan] loop *)

Inductive loop_exit : Type :=
| BreakCanceled       (* [break scan] *)
| BreakStop           (* [break // exit 0] *)
| ScanEnded           (* [s.Scan()] returned [false] *)
| LoopPanics (p : panic).

Fixpoint scan_loop (ls : list incoming) : loop_exit * list incoming * list event :=
  match ls with
  | [] => (ScanEnded, [], [ScanStopped])
  | l :: ls' =>
      if done l then (BreakCanceled, ls', [Scanned (text l)])
      else
        match decode Pow (now l) (text l) with
        | Reading d =>
            let '(x, rest, ev) := scan_loop ls' in
            (x, rest, Scanned (text l) :: Stored d :: ev)
        | StopAcknowledged => (BreakStop, ls', [Scanned (text l)])
        | Unmatched =>
            let '(x, rest, ev) := scan_loop ls' in
            (x, rest,
             Scanned (text l)
               :: Logged ("Read unmatched string: " ++ text l ++ LF)
               :: ev)
        | Panics p => (LoopPanics p, ls', [Scanned (text l)])
        end
  end.

(** The reader goroutine, from [port.SetReadTimeout] to its [return]s. *)
Definition reader_body (w : world) : outcome * world * list event :=
  let '(o, w1, ev1) := prepareDevice w in
  let ev1 := SetReadTimeout 10000 :: ev1 in
  match o with
  | Return None =>
      let '(x, rest, ev2) := scan_loop (lines w1) in
      let w2 := with_lines w1 rest in
      match x with
      | LoopPanics p => (Panicked p, w2, (ev1 ++ ev2)%list)
      | ScanEnded =>
          if scan_fails w2 then (Return (Some ErrScanner), w2, (ev1 ++ ev2)%list)
          else (Return None, w2, (ev1 ++ ev2 ++ [Logged "Reader stopped."])%list)
      | BreakCanceled | BreakStop =>
          (Return None, w2, (ev1 ++ ev2 ++ [Logged "Reader stopped."])%list)
      end
  | _ => (o, w1, ev1)
  end.

(** The deferred function: it runs when the goroutine returns and when it
    panics. *)
Definition deferred (w : world) : world * list event :=
  let '(_, w1, ev) := port_write ("STP" ++ CRLF) w in
  (w1, (ev ++ [Slept 100; Closed])%list).

Definition reader (w : world) : outcome * world * list event :=
  if open_fails w then (Return (Some ErrOpen), w, [])
  else
    let '(o, w1, ev) := reader_body w in
    let '(w2, ev') := deferred w1 in
    (o, w2, (ev ++ ev')%list).

(** The variable [latest] after a run that performed [ev], starting from
    [init]. *)
Fixpoint latest_after (init : option Data) (ev : list event) : option Data :=
  match ev with
  | [] => init
  | Stored d :: ev' => latest_after (Some d) ev'
  | _ :: ev' => latest_after init ev'
  end.

End Reader.

(** ** [encoding/json] and the handler of [/data] *)

(** The values of the fields of [Data], and the object a [Data] encodes to:
    its fields in the order of the struct. *)
Inductive json_value : Type :=
| JInt (n : Z)
| JFloat (f : float)
| JString (s : string).

Definition json_object : Type := list (string * json_value).

(** A [float64] the encoder accepts: neither NaN nor an infinity
    ([UnsupportedValueError] otherwise). *)
Definition json_float (f : float) : json_value + string :=
  if is_nan f then inr "json: unsupported value: NaN"
  else if is_infinity f then
    inr (if (f <? 0)%float then "json: unsupported value: -Inf"
         else "json: unsupported value: +Inf")
  else inl (JFloat f).

(** ** [time]: formatting and parsing with a layout *)

Module TimeLayout.

(** *** The calendar: days since 1970-01-01 and the civil date *)

Definition civil_from_days (z : Z) : Z * Z * Z :=
  let z := z + 719468 in
  let era := z / 146097 in
  let doe := z mod 146097 in
  let yoe := (doe - doe / 1460 + doe / 36524 - doe / 146096) / 365 in
  let doy := doe - (365 * yoe + yoe / 4 - yoe / 100) in
  let mp := (5 * doy + 2) / 153 in
  let d := doy - (153 * mp + 2) / 5 + 1 in
  let m := if mp <? 10 then mp + 3 else mp - 9 in
  let y := yoe + era * 400 in
  (if m <=? 2 then y + 1 else y, m, d).

Definition days_from_civil (y m d : Z) : Z :=
  let y := if m <=? 2 then y - 1 else y in
  let era := y / 400 in
  let yoe := y mod 400 in
  let mp := if m >? 2 then m - 3 else m + 9 in
  let doy := (153 * mp + 2) / 5 + d - 1 in
  let doe := yoe * 365 + yoe / 4 - yoe / 100 + doy in
  era * 146097 + doe - 719468.

Definition isLeap (year : Z) : bool :=
  ((year mod 4 =? 0) && (negb (year mod 100 =? 0) || (year mod 400 =? 0)))%bool.

Definition daysIn (month year : Z) : Z :=
  if month =? 2 then (if isLeap year then 29 else 28)
  else if ((month =? 4) || (month =? 6) || (month =? 9) || (month =? 11))%bool then 30
  else 31.

(** Year, month, day and clock of [t] in its zone. *)
Definition abs_sec (t : Time) : Z := unixSec t + zoneOffset t.
Definition date (t : Time) : Z * Z * Z := civil_from_days (abs_sec t / 86400).
Definition hour (t : Time) : Z := abs_sec t mod 86400 / 3600.
Definition minute (t : Time) : Z := abs_sec t mod 3600 / 60.
Definition second (t : Time) : Z := abs_sec t mod 60.

(** *** The elements of a layout

    [chunks] cuts a layout into reference-time elements and literal bytes.
    It knows the elements [ISO8601] is made of; the other elements of Go's
    layouts (names of months and days, the 12-hour clock, ...) do not
    occur in it. *)

Inductive chunk : Type :=
| Literal (c : ascii)
| stdLongYear             (* 2006 *)
| stdZeroMonth            (* 01 *)
| stdZeroDay              (* 02 *)
| stdHour                 (* 15 *)
| stdZeroMinute           (* 04 *)
| stdZeroSecond           (* 05 *)
| stdFracSecond0 (n : nat) (* .000: [n] digits, kept when zero *)
| stdISO8601ColonTZ.      (* Z07:00 *)

Definition starts (p s : string) : bool :=
  match cut_prefix p s with Some _ => true | None => false end.

Fixpoint zeros (s : string) : nat :=
  match s with
  | String "0" s' => S (zeros s')
  | _ => O
  end.

Fixpoint drop (n : nat) (s : string) : string :=
  match n, s with
  | S k, String _ s' => drop k s'
  | _, _ => s
  end.

(** The element that starts at the head of [layout], with its length. *)
Definition std_at (layout : string) : option (chunk * nat) :=
  if starts "2006" layout then Some (stdLongYear, 4%nat)
  else if starts "01" layout then Some (stdZeroMonth, 2%nat)
  else if starts "02" layout then Some (stdZeroDay, 2%nat)
  else if starts "15" layout then Some (stdHour, 2%nat)
  else if starts "04" layout then Some (stdZeroMinute, 2%nat)
  else if starts "05" layout then Some (stdZeroSecond, 2%nat)
  else if starts "Z07:00" layout then
    (if starts "Z07:00:00" layout then None else Some (stdISO8601ColonTZ, 6%nat))
  else if starts ".0" layout then
    let n := zeros (drop 1 layout) in
    match drop (S n) layout with
    | String c _ => if is_digit c then None else Some (stdFracSecond0 n, S n)
    | EmptyString => Some (stdFracSecond0 n, S n)
    end
  else None.

Fixpoint chunks_from (skip : nat) (layout : string) : list chunk :=
  match layout with
  | EmptyString => []
  | String c rest =>
      match skip with
      | S k => chunks_from k rest
      | O =>
          match std_at layout with
          | Some (ch, n) => ch :: chunks_from (Nat.pred n) rest
          | None => Literal c :: chunks_from O rest
          end
      end
  end.

Definition chunks (layout : string) : list chunk := chunks_from O layout.

(** *** Formatting *)

Definition digit_char (d : Z) : ascii := ascii_of_N (Z.to_N (48 + d)).

(** The last [w] decimal digits of [u], most significant first. *)
Fixpoint digits (w : nat) (u : Z) : string :=
  match w with
  | O => EmptyString
  | S k => digits k (u / 10) ++ String (digit_char (u mod 10)) EmptyString
  end.

(** The number of decimal digits of [u >= 0] (1 for 0); [fuel] bounds it. *)
Fixpoint ndigits (fuel : nat) (u : Z) : nat :=
  match fuel with
  | O => 1%nat
  | S k => if u <? 10 then 1%nat else S (ndigits k (u / 10))
  end.

(** [appendInt(b, x, width)]: [x] in decimal, zero-padded to [width]. *)
Definition appendInt (x : Z) (width : nat) : string :=
  let u := Z.abs x in
  let n := Nat.max width (ndigits (Z.to_nat (Z.log2 u)) u) in
  (if x <? 0 then "-" else "") ++ digits n u.

Definition format_chunk (t : Time) (c : chunk) : string :=
  match c with
  | Literal a => String a EmptyString
  | stdLongYear => let '(y, _, _) := date t in appendInt y 4
  | stdZeroMonth => let '(_, m, _) := date t in appendInt m 2
  | stdZeroDay => let '(_, _, d) := date t in appendInt d 2
  | stdHour => appendInt (hour t) 2
  | stdZeroMinute => appendInt (minute t) 2
  | stdZeroSecond => appendInt (second t) 2
  | stdFracSecond0 n => "." ++ take n (appendInt (nsec t) 9)
  | stdISO8601ColonTZ =>
      let offset := zoneOffset t in
      if offset =? 0 then "Z"
      else
        let zone := Z.quot offset 60 in
        let sign := if zone <? 0 then "-" else "+" in
        let zone := Z.abs zone in
        sign ++ appendInt (Z.quot zone 60) 2 ++ ":" ++ appendInt (Z.rem zone 60) 2
  end.

(** [t.Format(layout)] *)
Definition Format (t : Time) (layout : string) : string :=
  String.concat "" (map (format_chunk t) (chunks layout)).

(** *** Parsing *)

(** [atoi]: an optional sign and at least one digit, nothing else. *)
Fixpoint digits_value (s : string) (acc : Z) : option Z :=
  match s with
  | EmptyString => Some acc
  | String c s' => if is_digit c then digits_value s' (acc * 10 + digit_val c) else None
  end.

Definition atoi (s : string) : option Z :=
  match s with
  | EmptyString => None
  | String c s' =>
      if Ascii.eqb c "-" then
        match s' with
        | EmptyString => None
        | _ => option_map Z.opp (digits_value s' 0)
        end
      else if Ascii.eqb c "+" then
        match s' with
        | EmptyString => None
        | _ => digits_value s' 0
        end
      else digits_value s 0
  end.

(** [getnum(s, fixed)]: one or two digits, two when [fixed]. *)
Definition getnum (s : string) (fixed : bool) : option (Z * string) :=
  match s with
  | String a s1 =>
      if is_digit a then
        match s1 with
        | String b s2 =>
            if is_digit b then Some (digit_val a * 10 + digit_val b, s2)
            else if fixed then None else Some (digit_val a, s1)
        | EmptyString => if fixed then None else Some (digit_val a, s1)
        end
      else None
  | EmptyString => None
  end.

(** What [Parse] has read so far. *)
Record parsed : Type := mkParsed
  { p_year : Z; p_month : Z; p_day : Z;
    p_hour : Z; p_min : Z; p_sec : Z; p_nsec : Z;
    p_zone : option Z (* the offset read; [None]: none read *) }.

Definition in_range (lo x hi : Z) : bool := ((lo <=? x) && (x <=? hi))%bool.

Definition parse_chunk (c : chunk) (value : string) (f : parsed)
  : option (parsed * string) :=
  match c with
  | Literal a =>
      match value with
      | String b v' => if Ascii.eqb a b then Some (f, v') else None
      | EmptyString => None
      end
  | stdLongYear =>
      match slice_to value 4, value with
      | Some p, String c0 _ =>
          if is_digit c0 then
            match atoi p with
            | Some y =>
                Some (mkParsed y (p_month f) (p_day f) (p_hour f) (p_min f)
                               (p_sec f) (p_nsec f) (p_zone f), drop 4 value)
            | None => None
            end
          else None
      | _, _ => None
      end
  | stdZeroMonth =>
      match getnum value true with
      | Some (m, v') =>
          if in_range 1 m 12 then
            Some (mkParsed (p_year f) m (p_day f) (p_hour f) (p_min f)
                           (p_sec f) (p_nsec f) (p_zone f), v')
          else None
      | None => None
      end
  | stdZeroDay =>
      match getnum value true with
      | Some (d, v') =>
          Some (mkParsed (p_year f) (p_month f) d (p_hour f) (p_min f)
                         (p_sec f) (p_nsec f) (p_zone f), v')
      | None => None
      end
  | stdHour =>
      match getnum value false with
      | Some (h, v') =>
          if in_range 0 h 23 then
            Some (mkParsed (p_year f) (p_month f) (p_day f) h (p_min f)
                           (p_sec f) (p_nsec f) (p_zone f), v')
          else None
      | None => None
      end
  | stdZeroMinute =>
      match getnum value true with
      | Some (m, v') =>
          if in_range 0 m 59 then
            Some (mkParsed (p_year f) (p_month f) (p_day f) (p_hour f) m
                           (p_sec f) (p_nsec f) (p_zone f), v')
          else None
      | None => None
      end
  | stdZeroSecond =>
      match getnum value true with
      | Some (s, v') =>
          if in_range 0 s 59 then
            Some (mkParsed (p_year f) (p_month f) (p_day f) (p_hour f) (p_min f)
                           s (p_nsec f) (p_zone f), v')
          else None
      | None => None
      end
  | stdFracSecond0 n =>
      (* [parseNanoseconds(value, 1 + n)], for [n <= 9] *)
      match slice_to value (S n), value with
      | Some p, String c0 _ =>
          if (Ascii.eqb c0 "." || Ascii.eqb c0 ",")%bool then
            match atoi (drop 1 p) with
            | Some ns =>
                if ns <? 0 then None
                else
                  Some (mkParsed (p_year f) (p_month f) (p_day f) (p_hour f)
                                 (p_min f) (p_sec f) (ns * 10 ^ (9 - Z.of_nat n))
                                 (p_zone f), drop (S n) value)
            | None => None
            end
          else None
      | _, _ => None
      end
  | stdISO8601ColonTZ =>
      (* [Z], or [sign, hour, min := value[0:1], value[1:3], value[4:6]] *)
      match value with
      | String c v' =>
          if Ascii.eqb c "Z" then
            Some (mkParsed (p_year f) (p_month f) (p_day f) (p_hour f) (p_min f)
                           (p_sec f) (p_nsec f) (Some 0), v')
          else if (6 <=? String.length value)%nat then
            match String.get 3 value with
            | Some colon =>
                if Ascii.eqb colon ":" then
                  match getnum (substring 1 2 value) true,
                        getnum (substring 4 2 value) true with
                  | Some (hr, _), Some (mm, _) =>
                      if ((hr >? 24) || (mm >? 60))%bool then None
                      else
                        let off := (hr * 60 + mm) * 60 in
                        if Ascii.eqb c "+" then
                          Some (mkParsed (p_year f) (p_month f) (p_day f) (p_hour f)
                                         (p_min f) (p_sec f) (p_nsec f) (Some off),
                                drop 6 value)
                        else if Ascii.eqb c "-" then
                          Some (mkParsed (p_year f) (p_month f) (p_day f) (p_hour f)
                                         (p_min f) (p_sec f) (p_nsec f) (Some (- off)),
                                drop 6 value)
                        else None
                  | _, _ => None
                  end
                else None
            | None => None
            end
          else None
      | EmptyString => None
      end
  end.

Fixpoint parse_chunks (cs : list chunk) (value : string) (f : parsed) : option parsed :=
  match cs with
  | [] => match value with EmptyString => Some f | _ => None end
  | c :: cs' =>
      match parse_chunk c value f with
      | Some (f', value') => parse_chunks cs' value' f'
      | None => None
      end
  end.

(** [time.Parse(layout, value)]: the day is checked against the month once
    everything is read; the instant is the civil time less the offset. *)
Definition Parse (layout value : string) : option Time :=
  match parse_chunks (chunks layout) value (mkParsed 0 1 1 0 0 0 0 None) with
  | Some f =>
      if in_range 1 (p_day f) (daysIn (p_month f) (p_year f)) then
        let off := match p_zone f with Some o => o | None => 0 end in
        Some (mkTime (days_from_civil (p_year f) (p_month f) (p_day f) * 86400
                      + p_hour f * 3600 + p_min f * 60 + p_sec f - off)
                     (p_nsec f) off)
      else None
  | None => None
  end.

End TimeLayout.
Import TimeLayout.

(** [const ISO8601] *)
Definition ISO8601 : string := "2006-01-02T15:04:05.000Z07:00".

(** [ISO8601Time.MarshalJSON]: the JSON string of the formatted time. *)
Definition MarshalJSON (t : ISO8601Time) : json_value := JString (Format t ISO8601).

(** [t] with the nanoseconds below the millisecond dropped. *)
Definition truncate_ms (t : Time) : Time :=
  mkTime (unixSec t) (nsec t / 1000000 * 1000000) (zoneOffset t).

(** ** The handler of [/data] *)

(** [json.Marshal(latest)] for a non-nil [*Data]: the fields in the order of
    the struct, each under its tag; the first value the encoder refuses is
    the error. *)
Definition marshal_Data (d : Data) : json_object + string :=
  match json_float (Humidity d), json_float (Temperature d) with
  | inl h, inl t =>
      inl [("co2", JInt (CO2 d)); ("humidity", h); ("temperature", t);
           ("timestamp", MarshalJSON (Timestamp d))]
  | inr e, _ => inr e
  | _, inr e => inr e
  end.

Inductive body : Type :=
| TextBody (s : string)
| JSONBody (o : json_object).

Record response : Type := mkResponse
  { status : Z; content_type : string; content : body }.

Definition StatusOK : Z := 200.
Definition StatusInternalServerError : Z := 500.
Definition StatusServiceUnavailable : Z := 503.

(** [http.Error(w, msg, code)]: the message and a newline, as plain text. *)
Definition http_Error (msg : string) (code : Z) : response :=
  mkResponse code "text/plain; charset=utf-8" (TextBody (msg ++ LF)).

(** The function registered for [/data], given what [latest] holds when the
    request is served. *)
Definition handle_data (latest : option Data) : response :=
  match latest with
  | None => http_Error "no data" StatusServiceUnavailable
  | Some d =>
      match marshal_Data d with
      | inr err => http_Error err StatusInternalServerError
      | inl b => mkResponse StatusOK "application/json" (JSONBody b)
      end
  end.

(** ** Vocabulary of the properties *)

(** The bytes written to the port, in order. *)
Fixpoint writes (ev : list event) : list string :=
  match ev with
  | [] => []
  | Wrote bytes _ :: ev' => bytes :: writes ev'
  | _ :: ev' => writes ev'
  end.

(** The lines the scanner delivered, in order. *)
Fixpoint scanned (ev : list event) : list string :=
  match ev with
  | [] => []
  | Scanned l :: ev' => l :: scanned ev'
  | _ :: ev' => scanned ev'
  end.

(** A reply that is neither an acknowledgement nor a refusal, and long
    enough for the slice [t[:2]]. *)
Definition chatter (l : incoming) : Prop :=
  done l = false /\
  exists p, slice_to (text l) 2 = Some p /\ p <> "OK" /\ p <> "NG".

(** A reply, looked at before any cancellation, that begins with [p]. *)
Definition begins (p : string) (l : incoming) : Prop :=
  done l = false /\ exists s, text l = p ++ s.

(** A world whose port never refuses a write. *)
Definition writes_succeed (w : world) : Prop := Forall (fun ok => ok = true) (write_results w).

(** A stand-in for [math.Pow] where an example needs a function to run:
    the constant 1. *)
Definition unit_Pow (x y : float) : float := 1%float.

(** [f] holds of the [n] integers from [z] on. *)
Fixpoint all_from (n : nat) (z : Z) (f : Z -> bool) : bool :=
  match n with
  | O => true
  | S k => (f z && all_from k (z + 1) f)%bool
  end.

(** What the calendar owes a day [doe] of the 400-year cycle that starts on
    0000-03-01: a month, a day of that month, and the way back. *)
Definition cycle_day_ok (doe : Z) : bool :=
  let '(y, m, d) := civil_from_days (doe - 719468) in
  ((1 <=? m) && (m <=? 12) && (1 <=? d) && (d <=? daysIn m y)
   && (days_from_civil y m d =? doe - 719468))%bool.

(** A [float64] the encoder accepts. *)
Definition finite (f : float) : bool := (negb (is_nan f) && negb (is_infinity f))%bool.

(** The zone as the layout element [Z07:00] writes it. *)
Definition zone_text (offset : Z) : string :=
  if offset =? 0 then "Z"
  else (if offset <=? -60 then "-" else "+")
         ++ digits 2 (Z.abs offset / 3600) ++ ":" ++ digits 2 (Z.abs offset / 60 mod 60).

(** Two times denote the same instant. *)
Definition same_instant (a b : Time) : Prop := unixSec a = unixSec b /\ nsec a = nsec b.

(** The readings stored, in order. *)
Fixpoint stored (ev : list event) : list Data :=
  match ev with
  | [] => []
  | Stored d :: ev' => d :: stored ev'
  | _ :: ev' => stored ev'
  end.

(** The longest run of bytes of a class at the head of a text, and the text
    after it. *)
Fixpoint take_while (cls : ascii -> bool) (s : string) : string :=
  match s with
  | EmptyString => EmptyString
  | String c s' => if cls c then String c (take_while cls s') else EmptyString
  end.

Fixpoint drop_while (cls : ascii -> bool) (s : string) : string :=
  match s with
  | EmptyString => EmptyString
  | String c s' => if cls c then drop_while cls s' else s
  end.

(** The text of a frame with the fields [d], [h] and [t]. *)
Definition frame (d h t : string) : string :=
  "CO2=" ++ d ++ ",HUM=" ++ h ++ ",TMP=" ++ t.

(** The fields of a frame: a non-empty run of each class. *)
Definition frame_fields (d h t : string) : Prop :=
  (d <> "" /\ all_bytes is_digit d = true) /\
  (h <> "" /\ all_bytes cls_hum h = true) /\
  (t <> "" /\ all_bytes cls_tmp t = true).

(** A line the handshake and the loop can slice: [n] bytes or more. *)
Definition at_least (n : nat) (l : incoming) : Prop := (n <= String.length (text l))%nat.

(** A decimal number without sign: digits, or digits around one point, with
    at least one digit. *)
Definition plain_decimal (s : string) : Prop :=
  (exists a, a <> "" /\ all_bytes is_digit a = true /\ s = a) \/
  (exists a b,
     all_bytes is_digit a = true /\ all_bytes is_digit b = true /\
     (a <> "" \/ b <> "") /\ s = a ++ "." ++ b).

(** The text is not empty. *)
Definition nonempty (s : string) : bool :=
  match s with EmptyString => false | String _ _ => true end.

(** A line of the stream that is looked at and holds a frame. *)
Definition frame_line (Pow : float -> float -> float) (l : incoming) : Prop :=
  done l = false /\ exists r, decode Pow (now l) (text l) = Reading r.

(** The readings the lines of a list decode to, in order. *)
Definition readings (Pow : float -> float -> float) (ls : list incoming) : list Data :=
  flat_map (fun l => match decode Pow (now l) (text l) with
                     | Reading d => [d]
                     | _ => []
                     end) ls.

(** * Properties *)

(** ** Byte strings *)

Lemma append_assoc (a b c : string) : (a ++ b) ++ c = a ++ (b ++ c).
Proof. induction a as [|x a IH]; simpl; [reflexivity | now rewrite IH]. Qed.

Lemma append_nil_r (a : string) : a ++ "" = a.
Proof. induction a as [|x a IH]; simpl; [reflexivity | now rewrite IH]. Qed.

Lemma length_append (a b : string) :
  String.length (a ++ b) = (String.length a + String.length b)%nat.
Proof. induction a as [|x a IH]; simpl; [reflexivity | now rewrite IH]. Qed.

Lemma cut_prefix_app (p s : string) : cut_prefix p (p ++ s) = Some s.
Proof.
  induction p as [|a p IH]; simpl; [reflexivity|].
  now rewrite Ascii.eqb_refl.
Qed.

Lemma cut_prefix_some (p s s' : string) : cut_prefix p s = Some s' -> s = p ++ s'.
Proof.
  revert s; induction p as [|a p IH]; simpl; intros s H.
  - now inversion H.
  - destruct s as [|b s]; [discriminate|].
    destruct (Ascii.eqb_spec a b) as [->|]; [|discriminate].
    now rewrite (IH _ H).
Qed.

Lemma take_app_length (a b : string) : take (String.length a) (a ++ b) = a.
Proof. induction a as [|x a IH]; simpl; [now destruct b | now rewrite IH]. Qed.

Lemma all_bytes_app (p : ascii -> bool) (a b : string) :
  all_bytes p (a ++ b) = (all_bytes p a && all_bytes p b)%bool.
Proof.
  induction a as [|x a IH]; simpl; [reflexivity|].
  now rewrite IH, andb_assoc.
Qed.

Lemma all_bytes_impl (p q : ascii -> bool) (s : string) :
  (forall c, p c = true -> q c = true) -> all_bytes p s = true -> all_bytes q s = true.
Proof.
  intros Hpq; induction s as [|x s IH]; simpl; [reflexivity|].
  intros H; apply andb_true_iff in H as [Hx Hs].
  now rewrite (Hpq _ Hx), IH.
Qed.

(** ** The matcher *)

(** A group that matches took a non-empty run of bytes of its class, and
    the rest of the pattern matched what follows. *)
Lemma plus_sound cls k : forall s acc caps rest,
  plus cls k acc s = Some (caps, rest) ->
  exists u v caps',
    s = u ++ v /\ u <> "" /\ all_bytes cls u = true /\
    k v = Some (caps', rest) /\ caps = (acc ++ u) :: caps'.
Proof.
  induction s as [|a s IH]; simpl; intros acc caps rest H; [discriminate|].
  destruct (cls a) eqn:Ha; [|discriminate].
  destruct (plus cls k (acc ++ String a "") s) as [[caps1 rest1]|] eqn:Hp.
  - inversion H; subst; clear H.
    destruct (IH _ _ _ Hp) as (u & v & caps' & -> & Hu & Hall & Hk & ->).
    exists (String a u), v, caps'; simpl; rewrite Ha, Hall.
    repeat split; try easy.
    now rewrite append_assoc.
  - destruct (k s) as [[caps1 rest1]|] eqn:Hk; [|discriminate].
    inversion H; subst; clear H.
    exists (String a ""), s, caps1; simpl; rewrite Ha.
    repeat split; easy.
Qed.

(** A group is greedy: it takes the whole run in front of a byte outside
    its class whenever the rest of the pattern matches there. *)
Lemma plus_greedy cls k : forall u acc v caps rest,
  u <> "" -> all_bytes cls u = true -> stops cls v = true ->
  k v = Some (caps, rest) ->
  plus cls k acc (u ++ v) = Some ((acc ++ u) :: caps, rest).
Proof.
  induction u as [|a u IH]; intros acc v caps rest Hne Hall Hstop Hk; [easy|].
  simpl in Hall; apply andb_true_iff in Hall as [Ha Hu].
  simpl; rewrite Ha.
  destruct u as [|b u].
  - simpl.
    assert (Hv : plus cls k (acc ++ String a "") v = None).
    { destruct v as [|c v]; simpl; [reflexivity|].
      simpl in Hstop. now destruct (cls c). }
    now rewrite Hv, Hk.
  - rewrite (IH (acc ++ String a "") v caps rest); try easy.
    now rewrite append_assoc.
Qed.

(** A group fails when the rest of the pattern fails after every run it can
    take. *)
Lemma plus_none cls k : forall u acc v,
  all_bytes cls u = true -> stops cls v = true ->
  (forall u1 u2, u = u1 ++ u2 -> k (u2 ++ v) = None) ->
  plus cls k acc (u ++ v) = None.
Proof.
  induction u as [|a u IH]; intros acc v Hall Hstop Hk.
  - simpl. destruct v as [|c v]; simpl; [reflexivity|].
    simpl in Hstop. now destruct (cls c).
  - simpl in Hall; apply andb_true_iff in Hall as [Ha Hu].
    simpl; rewrite Ha.
    rewrite IH; try easy.
    + now rewrite (Hk (String a "") u).
    + intros u1 u2 ->. apply (Hk (String a u1) u2). reflexivity.
Qed.

(** A match captures one text per group. *)
Lemma match_here_captures : forall r s caps rest,
  match_here r s = Some (caps, rest) -> List.length caps = groups r.
Proof.
  induction r as [|n r IH]; intros s caps rest H.
  - now inversion H.
  - destruct n as [l|cls]; simpl in H.
    + destruct (cut_prefix l s); [|discriminate]. apply (IH _ _ _ H).
    + apply plus_sound in H as (u & v & caps' & _ & _ & _ & Hk & ->).
      unfold groups in *; simpl. f_equal. apply (IH _ _ _ Hk).
Qed.

(** What is left after a match is a suffix of the text. *)
Lemma match_here_suffix : forall r s caps rest,
  match_here r s = Some (caps, rest) -> exists m, s = m ++ rest.
Proof.
  induction r as [|n r IH]; intros s caps rest H.
  - inversion H; subst. now exists "".
  - destruct n as [l|cls]; simpl in H.
    + destruct (cut_prefix l s) as [s'|] eqn:Hc; [|discriminate].
      apply cut_prefix_some in Hc as ->.
      destruct (IH _ _ _ H) as [m ->]. exists (l ++ m). now rewrite append_assoc.
    + apply plus_sound in H as (u & v & caps' & -> & _ & _ & Hk & _).
      destruct (IH _ _ _ Hk) as [m ->]. exists (u ++ m). now rewrite append_assoc.
Qed.

(** Every match [find_all] reports is a match of the pattern at some
    position: the matched text followed by the captures. *)
Lemma find_all_matches r : forall s skip m,
  In m (find_all r skip s) ->
  exists whole caps rest pre,
    m = whole :: caps /\ s = pre ++ whole ++ rest /\
    match_here r (whole ++ rest) = Some (caps, rest).
Proof.
  induction s as [|c s IH]; intros skip m Hin.
  - destruct skip; simpl in Hin; [|easy].
    unfold submatch_at in Hin.
    destruct (match_here r "") as [[caps rest]|] eqn:Hm; [|easy].
    destruct Hin as [<-|[]].
    destruct (match_here_suffix _ _ _ _ Hm) as [w Hw].
    destruct w; [|discriminate]. simpl in Hw; subst rest.
    exists "", caps, "", "". simpl. repeat split; easy.
  - destruct skip as [|k]; simpl in Hin.
    + unfold submatch_at in Hin.
      destruct (match_here r (String c s)) as [[caps rest]|] eqn:Hm.
      * destruct Hin as [<-|Hin].
        -- destruct (match_here_suffix _ _ _ _ Hm) as [w Hw].
           exists w, caps, rest, "".
           rewrite Hw, length_append, Nat.add_sub, take_app_length.
           simpl. repeat split; try easy. now rewrite <- Hw.
        -- destruct (IH _ _ Hin) as (whole & caps' & rest' & pre & -> & -> & Hm').
           exists whole, caps', rest', (String c pre). repeat split; easy.
      * destruct (IH _ _ Hin) as (whole & caps' & rest' & pre & -> & -> & Hm').
        exists whole, caps', rest', (String c pre). repeat split; easy.
    + destruct (IH _ _ Hin) as (whole & caps' & rest' & pre & -> & -> & Hm').
      exists whole, caps', rest', (String c pre). repeat split; easy.
Qed.

(** A text in which the pattern matches somewhere has a first match. *)
Lemma find_all_finds r : forall pre s caps rest,
  match_here r s = Some (caps, rest) -> find_all r O (pre ++ s) <> [].
Proof.
  induction pre as [|c pre IH]; intros s caps rest Hm.
  - destruct s as [|a s]; simpl; unfold submatch_at; rewrite Hm; easy.
  - simpl. unfold submatch_at.
    destruct (match_here r (String c (pre ++ s))) as [[caps' rest']|]; [easy|].
    apply (IH _ _ _ Hm).
Qed.

Lemma match_here_lit l r s : match_here (Lit l :: r) (l ++ s) = match_here r s.
Proof. simpl. now rewrite cut_prefix_app. Qed.

Lemma match_here_lit_inv l r s caps rest :
  match_here (Lit l :: r) s = Some (caps, rest) ->
  exists s', s = l ++ s' /\ match_here r s' = Some (caps, rest).
Proof.
  simpl. destruct (cut_prefix l s) as [s'|] eqn:H; [|discriminate].
  apply cut_prefix_some in H as ->. now exists s'.
Qed.

Lemma match_here_group cls r s :
  match_here (Group cls :: r) s = plus cls (match_here r) "" s.
Proof. reflexivity. Qed.

Lemma match_here_group_inv cls r s caps rest :
  match_here (Group cls :: r) s = Some (caps, rest) ->
  exists u v caps',
    s = u ++ v /\ u <> "" /\ all_bytes cls u = true /\
    match_here r v = Some (caps', rest) /\ caps = u :: caps'.
Proof.
  rewrite match_here_group. intros H.
  apply plus_sound in H as (u & v & caps' & H).
  now exists u, v, caps'.
Qed.

(** ** The pattern of the program *)

(** The pattern matches a well-formed frame, taking each field whole. *)
Lemma re_matches_frame (d h t suf : string) :
  d <> "" -> all_bytes is_digit d = true ->
  h <> "" -> all_bytes cls_hum h = true ->
  t <> "" -> all_bytes cls_tmp t = true ->
  stops cls_tmp suf = true ->
  match_here re ("CO2=" ++ d ++ ",HUM=" ++ h ++ ",TMP=" ++ t ++ suf)
  = Some ([d; h; t], suf).
Proof.
  intros Hd Hdd Hh Hhh Ht Htt Hs. unfold re.
  rewrite match_here_lit, match_here_group.
  rewrite (plus_greedy _ _ d "" _ [h; t] suf); try easy.
  rewrite match_here_lit, match_here_group.
  rewrite (plus_greedy _ _ h "" _ [t] suf); try easy.
  rewrite match_here_lit, match_here_group.
  now rewrite (plus_greedy _ _ t "" _ [] suf).
Qed.

(** Conversely a match of the pattern is a frame: the three captures are
    non-empty runs of the three classes between the three literals. *)
Lemma re_match_is_frame (s : string) caps rest :
  match_here re s = Some (caps, rest) ->
  exists d h t,
    caps = [d; h; t] /\
    s = "CO2=" ++ d ++ ",HUM=" ++ h ++ ",TMP=" ++ t ++ rest /\
    (d <> "" /\ all_bytes is_digit d = true) /\
    (h <> "" /\ all_bytes cls_hum h = true) /\
    (t <> "" /\ all_bytes cls_tmp t = true).
Proof.
  unfold re; intros H.
  apply match_here_lit_inv in H as (s1 & -> & H).
  apply match_here_group_inv in H as (d & v1 & c1 & -> & Hd & Hdd & H & ->).
  apply match_here_lit_inv in H as (s2 & -> & H).
  apply match_here_group_inv in H as (h & v2 & c2 & -> & Hh & Hhh & H & ->).
  apply match_here_lit_inv in H as (s3 & -> & H).
  apply match_here_group_inv in H as (t & v3 & c3 & -> & Ht & Htt & H & ->).
  inversion H; subst; clear H.
  exists d, h, t. simpl. repeat split; easy.
Qed.

Section Decoding.

Variable Pow : float -> float -> float.

(** Whenever the pattern matches in a line, the loop stores a reading
    built from the first match: the errors of [strconv] play no part. *)
Lemma decode_first_match now text m ms :
  FindAllStringSubmatch re text = m :: ms ->
  exists whole c h t,
    m = [whole; c; h; t] /\
    decode Pow now text = Reading (reading_of Pow now c h t) /\
    (c <> "" /\ all_bytes is_digit c = true) /\
    (h <> "" /\ all_bytes cls_hum h = true) /\
    (t <> "" /\ all_bytes cls_tmp t = true).
Proof.
  intros H. unfold decode. rewrite H.
  assert (Hin : In m (find_all re O text))
    by (unfold FindAllStringSubmatch in H; rewrite H; now left).
  apply find_all_matches in Hin as (whole & caps & rest & pre & -> & _ & Hm).
  apply re_match_is_frame in Hm as (c & h & t & -> & _ & Hc & Hh & Ht).
  exists whole, c, h, t. repeat split; easy.
Qed.

(** Without a match the line is looked at for the acknowledgement. *)
Lemma decode_no_match now text :
  FindAllStringSubmatch re text = [] ->
  decode Pow now text =
    match slice_to text 6 with
    | None => Panics (SliceBounds 6 (String.length text))
    | Some p => if String.eqb p "OK STP" then StopAcknowledged else Unmatched
    end.
Proof. intros H. unfold decode. now rewrite H. Qed.

(** The index expressions [m[0][1]], [m[0][2]], [m[0][3]] are in range. *)
Lemma decode_index_in_range now text i n :
  decode Pow now text <> Panics (IndexRange i n).
Proof.
  destruct (FindAllStringSubmatch re text) as [|m ms] eqn:H.
  - rewrite (decode_no_match _ _ H).
    destruct (slice_to text 6); [destruct (String.eqb _ _)|]; discriminate.
  - destruct (decode_first_match now _ _ _ H) as (w & c & h & t & _ & -> & _). discriminate.
Qed.

End Decoding.

(** ** [strconv] on the captures *)

Lemma is_digit_val c : is_digit c = true -> 0 <= digit_val c <= 9.
Proof.
  unfold is_digit, byte_in, digit_val. intros H.
  apply andb_true_iff in H as [H1 H2].
  apply N.leb_le in H1, H2.
  change (N_of_ascii "0") with 48%N in H1. change (N_of_ascii "9") with 57%N in H2.
  lia.
Qed.

Lemma decimal_ge s : forall n, all_bytes is_digit s = true -> 0 <= n -> n <= decimal s n.
Proof.
  induction s as [|c s IH]; simpl; intros n H Hn; [lia|].
  apply andb_true_iff in H as [Hc Hs]. apply is_digit_val in Hc.
  specialize (IH (n * 10 + digit_val c) Hs). lia.
Qed.

(** [ParseUint] on digits: the number, or the largest [uint64] with a range
    error when the number does not fit. *)
Lemma parse_uint_loop_digits s : forall n,
  all_bytes is_digit s = true -> 0 <= n <= maxUint64 ->
  parse_uint_loop s n =
    if decimal s n <=? maxUint64 then (decimal s n, None)
    else (maxUint64, Some ErrRange).
Proof.
  induction s as [|c s IH]; simpl; intros n H Hn.
  - destruct (Z.leb_spec n maxUint64); [reflexivity|lia].
  - apply andb_true_iff in H as [Hc Hs]. rewrite Hc.
    pose proof (is_digit_val _ Hc) as Hd.
    pose proof (decimal_ge s (n * 10 + digit_val c) Hs) as Hge.
    assert (Hmax : maxUint64 = 18446744073709551615) by reflexivity.
    rewrite Hmax in *.
    change (18446744073709551615 / 10 + 1) with 1844674407370955162.
    destruct (Z.geb_spec n 1844674407370955162).
    + destruct (Z.leb_spec (decimal s (n * 10 + digit_val c)) 18446744073709551615);
        [lia|reflexivity].
    + destruct (Z.gtb_spec (n * 10 + digit_val c) 18446744073709551615).
      * destruct (Z.leb_spec (decimal s (n * 10 + digit_val c)) 18446744073709551615);
          [lia|reflexivity].
      * rewrite IH; [reflexivity|assumption|lia].
Qed.

(** [ParseInt] on a capture of [\d+]: the number, saturated at the largest
    [int64]; its only error is the range error. *)
Lemma ParseInt_digits s :
  s <> "" -> all_bytes is_digit s = true ->
  ParseInt s =
    if decimal s 0 <=? 2 ^ 63 - 1 then (decimal s 0, None)
    else (2 ^ 63 - 1, Some ErrRange).
Proof.
  intros Hne H. destruct s as [|c s]; [easy|].
  unfold ParseInt.
  assert (Hc : is_digit c = true) by (simpl in H; now apply andb_true_iff in H).
  assert (Hm : Ascii.eqb c "-" = false).
  { destruct (Ascii.eqb_spec c "-") as [->|]; [discriminate Hc|reflexivity]. }
  assert (Hp : Ascii.eqb c "+" = false).
  { destruct (Ascii.eqb_spec c "+") as [->|]; [discriminate Hc|reflexivity]. }
  rewrite Hm, Hp. cbn [orb negb andb].
  unfold ParseUint.
  rewrite parse_uint_loop_digits; [|assumption|unfold maxUint64; lia].
  pose proof (decimal_ge (String c s) 0 H ltac:(lia)) as Hge.
  assert (Hmax : maxUint64 = 18446744073709551615) by reflexivity.
  rewrite Hmax. change (2 ^ 63) with 9223372036854775808.
  change (9223372036854775808 - 1) with 9223372036854775807.
  destruct (Z.leb_spec (decimal (String c s) 0) 18446744073709551615).
  - destruct (Z.geb_spec (decimal (String c s) 0) 9223372036854775808);
      destruct (Z.leb_spec (decimal (String c s) 0) 9223372036854775807);
      try lia; reflexivity.
  - destruct (Z.leb_spec (decimal (String c s) 0) 9223372036854775807); [lia|].
    reflexivity.
Qed.

(** A syntax error of [ParseFloat] comes with the value zero. *)
Lemma ParseFloat_syntax_zero s :
  snd (ParseFloat s) = Some ErrSyntax -> fst (ParseFloat s) = 0%float.
Proof.
  unfold ParseFloat.
  destruct (match s with
            | "" => (false, s)
            | String c s1 =>
                if Ascii.eqb c "-" then (true, s1)
                else if Ascii.eqb c "+" then (false, s1) else (false, s)
            end) as [neg body].
  destruct (read_digits body _) as [st rest].
  destruct (negb (sawdigits st)); [reflexivity|].
  destruct rest; [|reflexivity].
  match goal with |- context [is_infinity ?v] => destruct (is_infinity v) end;
    simpl; discriminate.
Qed.

(** [strconv] and [time] on samples. *)
Example ParseFloat_samples :
  ParseFloat "23.1" = (23.1%float, None) /\
  ParseFloat "-3.2" = ((-3.2)%float, None) /\
  ParseFloat "5." = (5%float, None) /\
  ParseFloat ".5" = (0.5%float, None) /\
  ParseFloat "9007199254740993" = (9007199254740992%float, None) /\
  ParseFloat "1.2.3" = (0%float, Some ErrSyntax) /\
  ParseFloat "-" = (0%float, Some ErrSyntax) /\
  ParseFloat "3-2" = (0%float, Some ErrSyntax).
Proof. repeat split; vm_compute; reflexivity. Qed.

Example ParseInt_samples :
  ParseInt "412" = (412, None) /\
  ParseInt "9223372036854775807" = (9223372036854775807, None) /\
  ParseInt "9223372036854775808" = (9223372036854775807, Some ErrRange) /\
  ParseInt "" = (0, Some ErrSyntax) /\
  ParseInt "abc" = (0, Some ErrSyntax).
Proof. repeat split; vm_compute; reflexivity. Qed.

Example Format_samples :
  Format (mkTime 1693737296 999999999 0) ISO8601 = "2023-09-03T10:34:56.999Z" /\
  Format (mkTime 1693737296 5000000 (-16200)) ISO8601 = "2023-09-03T06:04:56.005-04:30" /\
  Format (mkTime 1709164800 0 0) ISO8601 = "2024-02-29T00:00:00.000Z" /\
  Parse ISO8601 "2024-02-30T00:00:00.000Z" = None.
Proof. repeat split; vm_compute; reflexivity. Qed.

(** ** Compensation and decoding of a frame *)

(** The reference triple of the specification: 25.0 degrees read give 20.5. *)
Example correctTemperature_25 : correctTemperature 25 = 20.5%float.
Proof. reflexivity. Qed.

(** C1. For every raw temperature [t] the temperature correction returns
    [t - 4.5]; for every raw humidity [h] and raw temperature [t] the
    humidity correction returns
    [h * 10^(7.5 t / (t + 237.3)) / 10^(7.5 t1 / (t1 + 237.3))] with
    [t1 = t - 4.5], in binary64 arithmetic; and the CO2 value of the reading
    the loop stores is the integer read from the frame, with no correction
    (it is the number the digits denote, up to the largest [int64]). *)
Theorem compensation_exact (Pow : float -> float -> float) :
  (forall t, correctTemperature t = (t - 4.5)%float) /\
  (forall h t,
     correctHumidity Pow h t
     = (h * Pow 10 (7.5 * t / (t + 237.3))
          / Pow 10 (7.5 * (t - 4.5) / (t - 4.5 + 237.3)))%float) /\
  (forall now text m ms,
     FindAllStringSubmatch re text = m :: ms ->
     exists whole c h t,
       m = [whole; c; h; t] /\
       decode Pow now text = Reading (reading_of Pow now c h t) /\
       CO2 (reading_of Pow now c h t) = Z.min (decimal c 0) (2 ^ 63 - 1)).
Proof.
  split; [reflexivity|]. split; [reflexivity|].
  intros now text m ms H.
  destruct (decode_first_match Pow now _ _ _ H) as (whole & c & h & t & -> & Hd & [Hc Hcc] & _).
  exists whole, c, h, t. repeat split; [assumption|].
  unfold reading_of; cbn [CO2]. rewrite (ParseInt_digits c Hc Hcc).
  destruct (Z.leb_spec (decimal c 0) (2 ^ 63 - 1)); cbn [fst]; lia.
Qed.

(** C5. Decoding [CO2=412,HUM=45.3,TMP=23.1] yields the reading with
    co2 = 412, temperature = 23.1 - 4.5 and the corrected humidity of the
    formula; decoding [garbage CO2=412,HUM=45.3,TMP=23.1 trailing] yields the
    same reading: the pattern is searched for in the line, not matched
    against the whole of it. *)
Theorem decode_sample_frame (Pow : float -> float -> float) (now : Time) :
  let t := 23.1%float in
  let t1 := (t - 4.5)%float in
  let r :=
    mkData 412
           (45.3 * Pow 10 (7.5 * t / (t + 237.3)) / Pow 10 (7.5 * t1 / (t1 + 237.3)))%float
           t1 now in
  decode Pow now "CO2=412,HUM=45.3,TMP=23.1" = Reading r /\
  decode Pow now "garbage CO2=412,HUM=45.3,TMP=23.1 trailing" = Reading r /\
  FindAllStringSubmatch re "garbage CO2=412,HUM=45.3,TMP=23.1 trailing"
  = [["CO2=412,HUM=45.3,TMP=23.1"; "412"; "45.3"; "23.1"]].
Proof. repeat split; vm_compute; reflexivity. Qed.

(** C2, as the code has it.  Whenever the pattern matches, the loop stores a
    reading built from the first match, whatever [strconv] reports: a float
    field that fails to parse enters the reading as the zero [ParseFloat]
    returns with its syntax error (so a temperature that fails to parse is
    stored as [0 - 4.5]); the CO2 field, all digits, cannot fail but for its
    range, and then enters as the largest [int64].  No outcome of the loop
    stands for a malformed frame.  The line [CO2=abc,HUM=1,TMP=2] does not
    match the pattern: it is logged as unmatched and no reading is stored. *)
Theorem parse_errors_discarded (Pow : float -> float -> float) now text m ms :
  FindAllStringSubmatch re text = m :: ms ->
  (exists whole c h t,
     m = [whole; c; h; t] /\
     decode Pow now text = Reading (reading_of Pow now c h t) /\
     (snd (ParseFloat h) = Some ErrSyntax -> fst (ParseFloat h) = 0%float) /\
     (snd (ParseFloat t) = Some ErrSyntax ->
      Temperature (reading_of Pow now c h t) = (0 - 4.5)%float) /\
     snd (ParseInt c) <> Some ErrSyntax /\
     (snd (ParseInt c) = Some ErrRange -> CO2 (reading_of Pow now c h t) = 2 ^ 63 - 1)) /\
  decode Pow now "CO2=abc,HUM=1,TMP=2" = Unmatched.
Proof.
  intros H. split; [|vm_compute; reflexivity].
  destruct (decode_first_match Pow now _ _ _ H) as (whole & c & h & t & -> & Hd & [Hc Hcc] & _).
  exists whole, c, h, t. split; [reflexivity|]. split; [assumption|].
  split; [apply ParseFloat_syntax_zero|].
  split.
  { intros Ht. unfold reading_of; cbn [Temperature].
    now rewrite (ParseFloat_syntax_zero _ Ht). }
  unfold reading_of; cbn [CO2]. rewrite (ParseInt_digits c Hc Hcc).
  destruct (Z.leb_spec (decimal c 0) (2 ^ 63 - 1)); cbn [fst snd];
    split; try discriminate; reflexivity.
Qed.

Lemma parse_errors_discarded_witness :
  FindAllStringSubmatch re "CO2=412,HUM=1.2.3,TMP=23.1"
  = [["CO2=412,HUM=1.2.3,TMP=23.1"; "412"; "1.2.3"; "23.1"]] /\
  decode unit_Pow (mkTime 0 0 0) "CO2=412,HUM=1.2.3,TMP=23.1"
  = Reading (mkData 412 0 (23.1 - 4.5) (mkTime 0 0 0)).
Proof.
  split; [vm_compute; reflexivity|].
  destruct (parse_errors_discarded unit_Pow (mkTime 0 0 0)
              "CO2=412,HUM=1.2.3,TMP=23.1"
              ["CO2=412,HUM=1.2.3,TMP=23.1"; "412"; "1.2.3"; "23.1"] [])
    as [(whole & c & h & t & Hm & Hd & _) _].
  - vm_compute; reflexivity.
  - rewrite Hd. inversion Hm; subst. vm_compute; reflexivity.
Defined.

(** C2, as stated, fails: the line [CO2=412,HUM=1.2.3,TMP=23.1] matches the
    pattern, its humidity field is refused by [ParseFloat] with a syntax
    error, and the loop still stores a reading, with the humidity computed
    from zero. *)
Lemma parse_error_stores_reading :
  FindAllStringSubmatch re "CO2=412,HUM=1.2.3,TMP=23.1"
  = [["CO2=412,HUM=1.2.3,TMP=23.1"; "412"; "1.2.3"; "23.1"]] /\
  ParseFloat "1.2.3" = (0%float, Some ErrSyntax) /\
  (forall Pow now,
     decode Pow now "CO2=412,HUM=1.2.3,TMP=23.1"
     = Reading (mkData 412 (correctHumidity Pow 0 23.1) (23.1 - 4.5) now)).
Proof. repeat split; vm_compute; reflexivity. Qed.

(** ** The minus sign in the pattern *)

(** Every text splits into the longest run of a class and what stops it. *)
Lemma span_class cls : forall s,
  exists u v, s = u ++ v /\ all_bytes cls u = true /\ stops cls v = true.
Proof.
  induction s as [|c s (u & v & -> & Hu & Hv)].
  - now exists "", "".
  - destruct (cls c) eqn:Hc.
    + exists (String c u), v. simpl. now rewrite Hc, Hu.
    + exists "", (String c (u ++ v)). simpl. now rewrite Hc.
Qed.

(** A match at the head of a text is the first match [FindAllStringSubmatch]
    reports. *)
Lemma find_all_head r s caps rest :
  match_here r s = Some (caps, rest) ->
  exists whole ms, FindAllStringSubmatch r s = (whole :: caps) :: ms.
Proof.
  intros H. unfold FindAllStringSubmatch.
  destruct s; simpl; unfold submatch_at; rewrite H; eauto.
Qed.

Lemma match_here_lit_mismatch a l r c s :
  Ascii.eqb a c = false -> match_here (Lit (String a l) :: r) (String c s) = None.
Proof. intros H. cbn [match_here cut_prefix]. now rewrite H. Qed.

Lemma re_needs_C c s : Ascii.eqb "C" c = false -> match_here re (String c s) = None.
Proof. intros H. unfold re. now apply match_here_lit_mismatch. Qed.

(** Nothing matches in a text without the byte [C]. *)
Lemma find_all_without_C : forall s,
  all_bytes (fun c => negb (Ascii.eqb c "C")) s = true -> find_all re O s = [].
Proof.
  induction s as [|c s IH]; intros H; [reflexivity|].
  simpl in H. apply andb_true_iff in H as [Hc Hs].
  rewrite Ascii.eqb_sym in Hc. apply negb_true_iff in Hc.
  cbn [find_all]. unfold submatch_at. rewrite (re_needs_C c s Hc).
  now apply IH.
Qed.

Lemma digit_not_comma c : is_digit c = true -> Ascii.eqb "," c = false.
Proof. intros H. destruct (Ascii.eqb_spec "," c) as [<-|]; [discriminate H|reflexivity]. Qed.

Lemma cls_tmp_not_C c : cls_tmp c = true -> negb (Ascii.eqb c "C") = true.
Proof.
  intros H. destruct (Ascii.eqb_spec c "C") as [->|]; [discriminate H|reflexivity].
Qed.

Lemma is_digit_cls_hum c : is_digit c = true -> cls_hum c = true.
Proof. unfold cls_hum. now intros ->. Qed.

Lemma cls_hum_cls_tmp c : cls_hum c = true -> cls_tmp c = true.
Proof. unfold cls_tmp, cls_hum. now intros ->. Qed.

(** A minus sign where the humidity should start: no match at this frame. *)
Lemma re_rejects_negative_humidity d suf :
  all_bytes is_digit d = true ->
  match_here re ("CO2=" ++ d ++ ",HUM=-" ++ suf) = None.
Proof.
  intros Hd. unfold re. rewrite match_here_lit, match_here_group.
  apply plus_none; [assumption|reflexivity|].
  intros u1 u2 ->. rewrite all_bytes_app in Hd. apply andb_true_iff in Hd as [_ Hd].
  destruct u2 as [|c u2].
  - reflexivity.
  - simpl in Hd. apply andb_true_iff in Hd as [Hc _].
    apply match_here_lit_mismatch, digit_not_comma, Hc.
Qed.

(** C10. In the pattern the temperature field accepts the minus sign and the
    humidity field does not.  For all fields [d] (digits), [h] (digits and
    points) and [t] (digits, points, minus signs): the frame with the
    temperature [-t] matches and the loop stores the reading of [d], [h] and
    [-t], and a line that contains this frame anywhere stores a reading; the
    frame with the humidity [-h] does not match where it stands, whatever
    follows, and the line made of it is logged as unmatched; a line holding
    such a frame stores a reading only when the pattern matches elsewhere in
    it. *)
Theorem minus_sign_fields (Pow : float -> float -> float) (now : Time) (d h t : string) :
  d <> "" -> all_bytes is_digit d = true ->
  h <> "" -> all_bytes cls_hum h = true ->
  t <> "" -> all_bytes cls_tmp t = true ->
  decode Pow now ("CO2=" ++ d ++ ",HUM=" ++ h ++ ",TMP=-" ++ t)
  = Reading (reading_of Pow now d h ("-" ++ t)) /\
  (forall pre suf, exists r,
     decode Pow now (pre ++ "CO2=" ++ d ++ ",HUM=" ++ h ++ ",TMP=-" ++ t ++ suf)
     = Reading r) /\
  (forall suf, match_here re ("CO2=" ++ d ++ ",HUM=-" ++ suf) = None) /\
  decode Pow now ("CO2=" ++ d ++ ",HUM=-" ++ h ++ ",TMP=" ++ t) = Unmatched /\
  decode Pow now "CO2=400,HUM=-5.0,TMP=20.0 CO2=401,HUM=5.0,TMP=-3.2"
  = Reading (reading_of Pow now "401" "5.0" "-3.2").
Proof.
  intros Hd Hdd Hh Hhh Ht Htt.
  split; [|split; [|split; [|split]]].
  - pose proof (re_matches_frame d h ("-" ++ t) "" Hd Hdd Hh Hhh) as Hm.
    rewrite append_nil_r in Hm.
    destruct (find_all_head _ _ _ _ (Hm ltac:(easy) ltac:(simpl; exact Htt) eq_refl))
      as (whole & ms & Hf).
    unfold decode. simpl in Hf |- *. rewrite Hf. reflexivity.
  - intros pre suf.
    destruct (span_class cls_tmp suf) as (u & v & -> & Hu & Hv).
    assert (Hm : match_here re ("CO2=" ++ d ++ ",HUM=" ++ h ++ ",TMP=-" ++ t ++ u ++ v)
                 = Some ([d; h; "-" ++ t ++ u], v)).
    { rewrite <- (re_matches_frame d h ("-" ++ t ++ u) v); try easy.
      - simpl. now rewrite !append_assoc.
      - simpl. now rewrite all_bytes_app, Htt, Hu. }
    pose proof (find_all_finds re pre _ _ _ Hm) as Hne.
    destruct (find_all re O (pre ++ "CO2=" ++ d ++ ",HUM=" ++ h ++ ",TMP=-" ++ t ++ u ++ v))
      as [|m ms] eqn:Hf; [easy|].
    destruct (decode_first_match Pow now _ _ _ Hf) as (w & c & h' & t' & _ & -> & _).
    eauto.
  - intros suf. now apply re_rejects_negative_humidity.
  - rewrite decode_no_match.
    + unfold slice_to. simpl String.length. rewrite length_append. simpl.
      destruct (String.length d) as [|[|n]] eqn:Hl.
      * destruct d; [easy|discriminate].
      * destruct d as [|c [|c' d']]; try discriminate. reflexivity.
      * destruct d as [|c [|c' d']]; try discriminate. reflexivity.
    + unfold FindAllStringSubmatch. simpl. unfold submatch_at.
      change (String "C" (String "O" (String "2" (String "=" (d ++ String "," (String "H"
                (String "U" (String "M" (String "=" (String "-" (h ++ String ","
                (String "T" (String "M" (String "P" (String "=" t)))))))))))))))
        with ("CO2=" ++ d ++ ",HUM=-" ++ h ++ ",TMP=" ++ t).
      rewrite (re_rejects_negative_humidity d _ Hdd).
      apply find_all_without_C.
      simpl. rewrite all_bytes_app. simpl. rewrite all_bytes_app. simpl.
      rewrite (all_bytes_impl is_digit _ d), (all_bytes_impl cls_hum _ h),
        (all_bytes_impl cls_tmp _ t); try easy; intros c Hc; apply cls_tmp_not_C.
      * exact Hc.
      * now apply cls_hum_cls_tmp.
      * now apply cls_hum_cls_tmp, is_digit_cls_hum.
  - vm_compute; reflexivity.
Qed.

Lemma minus_sign_fields_witness :
  decode unit_Pow (mkTime 0 0 0) "CO2=400,HUM=45.3,TMP=-3.2"
  = Reading (reading_of unit_Pow (mkTime 0 0 0) "400" "45.3" "-3.2") /\
  decode unit_Pow (mkTime 0 0 0) "CO2=400,HUM=-45.3,TMP=3.2" = Unmatched.
Proof.
  destruct (minus_sign_fields unit_Pow (mkTime 0 0 0) "400" "45.3" "3.2")
    as (H1 & _ & _ & H2 & _); try reflexivity; try discriminate.
  split; assumption.
Defined.

(** ** The handshake *)

Lemma writes_app a b : writes (a ++ b) = (writes a ++ writes b)%list.
Proof.
  induction a as [|e a IH]; simpl; [reflexivity|].
  destruct e; simpl; now rewrite ?IH.
Qed.

Lemma scanned_app a b : scanned (a ++ b) = (scanned a ++ scanned b)%list.
Proof.
  induction a as [|e a IH]; simpl; [reflexivity|].
  destruct e; simpl; now rewrite ?IH.
Qed.

Lemma slice_to_2_prefix p s :
  String.length p = 2%nat -> slice_to (p ++ s) 2 = Some p.
Proof.
  destruct p as [|a [|b [|c p]]]; try discriminate. intros _. reflexivity.
Qed.

(** The wait skips chatter and stops at the first [OK] or [NG]. *)
Lemma await_reply_chatter chat : forall l rest,
  Forall chatter chat ->
  (begins "OK" l -> await_reply (chat ++ l :: rest)
                    = (GotOK, rest, map (fun x => Scanned (text x)) (chat ++ [l]))) /\
  (begins "NG" l -> await_reply (chat ++ l :: rest)
                    = (GotNG, rest, map (fun x => Scanned (text x)) (chat ++ [l]))).
Proof.
  induction chat as [|c chat IH]; intros l rest Hc.
  - split; intros [Hd [s Hs]]; simpl; rewrite Hd, Hs, slice_to_2_prefix; reflexivity.
  - inversion Hc as [|? ? [Hd (p & Hp & Hok & Hng)] Hc']; subst.
    destruct (IH l rest Hc') as [IH1 IH2].
    split; intros Hl; simpl; rewrite Hd, Hp;
      apply String.eqb_neq in Hok, Hng; rewrite Hok, Hng;
      [rewrite (IH1 Hl) | rewrite (IH2 Hl)]; reflexivity.
Qed.

(** A line too short for [t[:2]] makes the wait panic. *)
Lemma await_reply_short chat : forall l rest,
  Forall chatter chat -> done l = false -> (String.length (text l) < 2)%nat ->
  fst (fst (await_reply (chat ++ l :: rest)))
  = ReplyPanics (SliceBounds 2 (String.length (text l))).
Proof.
  induction chat as [|c chat IH]; intros l rest Hc Hd Hlen.
  - simpl. rewrite Hd. unfold slice_to.
    destruct (Nat.leb_spec 2 (String.length (text l))); [lia|reflexivity].
  - inversion Hc as [|? ? [Hd' (p & Hp & Hok & Hng)] Hc']; subst.
    simpl. rewrite Hd', Hp.
    apply String.eqb_neq in Hok, Hng; rewrite Hok, Hng.
    specialize (IH l rest Hc' Hd Hlen).
    destruct (await_reply (chat ++ l :: rest)) as [[r rs] ev]. exact IH.
Qed.

Lemma port_write_ok bytes w :
  writes_succeed w ->
  exists w', port_write bytes w = (true, w', [Wrote bytes true]) /\
             lines w' = lines w /\ scan_fails w' = scan_fails w /\ writes_succeed w'.
Proof.
  unfold port_write, writes_succeed. intros H.
  destruct (write_results w) as [|ok rs] eqn:Hw.
  - exists w. rewrite Hw. repeat split; constructor.
  - inversion H; subst. eexists. split; [reflexivity|]. repeat split; assumption.
Qed.

Lemma writes_scanned_lines (ls : list incoming) :
  writes (map (fun x => Scanned (text x)) ls) = [].
Proof. induction ls; simpl; auto. Qed.

(** One command acknowledged: the command is written with its CRLF, the
    replies up to the [OK] are read, and the loop goes on to the next
    command. *)
Lemma send_commands_ok c cmds w chat l rest :
  writes_succeed w -> lines w = (chat ++ l :: rest)%list ->
  Forall chatter chat -> begins "OK" l ->
  exists w1,
    writes_succeed w1 /\ lines w1 = rest /\ scan_fails w1 = scan_fails w /\
    send_commands (c :: cmds) w =
      (let '(o, w3, ev') := send_commands cmds w1 in
       (o, w3,
        (Logged (" " ++ c) :: Wrote (c ++ CRLF) true :: Slept 100
           :: map (fun x => Scanned (text x)) (chat ++ [l]) ++ ev')%list)).
Proof.
  intros Hw Hl Hc Hok.
  destruct (port_write_ok (c ++ CRLF) w Hw)
    as (w' & Hpw & Hl' & Hs' & Hw').
  exists (with_lines w' rest). repeat split; try assumption.
  cbn [send_commands]. rewrite Hpw. cbn [negb].
  rewrite Hl', Hl.
  destruct (await_reply_chatter chat l rest Hc) as [Hr _]. rewrite (Hr Hok).
  cbn iota beta.
  destruct (send_commands cmds (with_lines w' rest)) as [[o w3] ev']. reflexivity.
Qed.

(** One command refused: the function returns the error that carries the
    command, having written nothing after it. *)
Lemma send_commands_ng c cmds w chat l rest :
  writes_succeed w -> lines w = (chat ++ l :: rest)%list ->
  Forall chatter chat -> begins "NG" l ->
  exists w1 ev,
    send_commands (c :: cmds) w = (Return (Some (ErrCommandFailed c)), w1, ev) /\
    lines w1 = rest /\ writes ev = [c ++ CRLF].
Proof.
  intros Hw Hl Hc Hng.
  destruct (port_write_ok (c ++ CRLF) w Hw)
    as (w' & Hpw & Hl' & Hs' & Hw').
  cbn [send_commands]. rewrite Hpw. cbn [negb].
  rewrite Hl', Hl.
  destruct (await_reply_chatter chat l rest Hc) as [_ Hr]. rewrite (Hr Hng).
  cbn iota beta. eexists _, _. split; [reflexivity|]. split; [reflexivity|].
  cbn [app writes]. now rewrite writes_scanned_lines.
Qed.

(** The handshake against a device that acknowledges the three commands,
    with any chatter in between: it returns [nil], having written exactly
    STP, ID? and STA, each with its CRLF, in this order, and having read
    nothing past the third acknowledgement. *)
Lemma prepareDevice_ready w chat1 ok1 chat2 ok2 chat3 ok3 rest :
  writes_succeed w ->
  lines w = (chat1 ++ ok1 :: chat2 ++ ok2 :: chat3 ++ ok3 :: rest)%list ->
  Forall chatter chat1 -> Forall chatter chat2 -> Forall chatter chat3 ->
  begins "OK" ok1 -> begins "OK" ok2 -> begins "OK" ok3 ->
  exists w' ev,
    prepareDevice w = (Return None, w', ev) /\
    lines w' = rest /\
    writes ev = ["STP" ++ CRLF;
                 "ID?" ++ CRLF;
                 "STA" ++ CRLF] /\
    scanned ev = map text (chat1 ++ ok1 :: chat2 ++ ok2 :: chat3 ++ [ok3]).
Proof.
  intros Hw Hl H1 H2 H3 Ho1 Ho2 Ho3.
  unfold prepareDevice, commands.
  destruct (send_commands_ok "STP" ["ID?"; "STA"] w _ _ _ Hw Hl H1 Ho1)
    as (w1 & Hw1 & Hl1 & _ & ->).
  destruct (send_commands_ok "ID?" ["STA"] w1 _ _ _ Hw1 Hl1 H2 Ho2)
    as (w2 & Hw2 & Hl2 & _ & ->).
  destruct (send_commands_ok "STA" [] w2 _ _ _ Hw2 Hl2 H3 Ho3)
    as (w3 & Hw3 & Hl3 & _ & ->).
  cbn [send_commands]. eexists _, _. split; [reflexivity|]. split; [assumption|].
  cbn [writes scanned app].
  rewrite !writes_app, !scanned_app, !writes_scanned_lines. cbn [writes scanned app].
  rewrite !writes_app, !scanned_app, !writes_scanned_lines. cbn [writes scanned app].
  rewrite !writes_app, !scanned_app, !writes_scanned_lines. cbn [writes scanned app].
  split; [reflexivity|].
  assert (Hsc : forall ls, scanned (map (fun x => Scanned (text x)) ls) = map text ls).
  { induction ls; simpl; congruence. }
  rewrite !Hsc, app_nil_r.
  repeat (rewrite map_app; cbn [map]).
  repeat (rewrite <- app_assoc; cbn [app]). reflexivity.
Qed.

(** The handshake against a device that acknowledges STP and refuses ID?:
    it returns the error that carries ID?, and STA is never written. *)
Lemma prepareDevice_refused w chat1 ok1 chat2 ng rest :
  writes_succeed w ->
  lines w = (chat1 ++ ok1 :: chat2 ++ ng :: rest)%list ->
  Forall chatter chat1 -> Forall chatter chat2 ->
  begins "OK" ok1 -> begins "NG" ng ->
  exists w' ev,
    prepareDevice w = (Return (Some (ErrCommandFailed "ID?")), w', ev) /\
    lines w' = rest /\
    writes ev = ["STP" ++ CRLF;
                 "ID?" ++ CRLF].
Proof.
  intros Hw Hl H1 H2 Ho1 Hng.
  unfold prepareDevice, commands.
  destruct (send_commands_ok "STP" ["ID?"; "STA"] w _ _ _ Hw Hl H1 Ho1)
    as (w1 & Hw1 & Hl1 & _ & ->).
  destruct (send_commands_ng "ID?" ["STA"] w1 _ _ _ Hw1 Hl1 H2 Hng)
    as (w2 & ev & -> & Hl2 & Hev).
  eexists _, _. split; [reflexivity|]. split; [assumption|].
  cbn [writes app]. rewrite writes_app, writes_scanned_lines, Hev. reflexivity.
Qed.

(** C4, where the code departs from it.  The handshake compares the slice
    [t[:2]] of every reply with "OK" and "NG": a reply shorter than two
    bytes (here the empty line, in front of the acknowledgement of STP) is
    not ignored, the slice expression panics.  The panic leaves the
    goroutine through the deferred function, so the run still ends with STP
    and the close of the port. *)
Theorem prepareDevice_short_reply_panics :
  let t0 := mkTime 0 0 0 in
  let w := mkWorld false [mkLine "" false t0; mkLine "OK STP" false t0;
                          mkLine "OK ID=UD-CO2S" false t0; mkLine "OK STA" false t0]
                   false [] in
  prepareDevice w
  = (Panicked (SliceBounds 2 0),
     with_lines w [mkLine "OK STP" false t0;
                   mkLine "OK ID=UD-CO2S" false t0; mkLine "OK STA" false t0],
     [Logged "Prepare device...:"; Logged " STP"; Wrote ("STP" ++ CRLF) true;
      Slept 100; Scanned ""]) /\
  forall Pow,
    reader Pow w
    = (Panicked (SliceBounds 2 0),
       with_lines w [mkLine "OK STP" false t0;
                     mkLine "OK ID=UD-CO2S" false t0; mkLine "OK STA" false t0],
       [SetReadTimeout 10000; Logged "Prepare device...:"; Logged " STP";
        Wrote ("STP" ++ CRLF) true; Slept 100; Scanned "";
        Wrote ("STP" ++ CRLF) true; Slept 100; Closed]).
Proof. split; [|intros Pow]; vm_compute; reflexivity. Qed.

(** ** The streaming loop *)

Lemma take_eqb_starts q : forall s,
  (String.length q <= String.length s)%nat ->
  String.eqb (take (String.length q) s) q = starts q s.
Proof.
  unfold starts.
  induction q as [|a q IH]; intros s Hlen.
  - simpl. now destruct s.
  - destruct s as [|b s]; [simpl in Hlen; lia|].
    simpl in Hlen. simpl. rewrite (Ascii.eqb_sym b a).
    destruct (Ascii.eqb a b); [|reflexivity].
    apply IH. lia.
Qed.

(** A line without the pattern and of six bytes or more: it ends the loop
    when it begins with "OK STP" and is logged otherwise. *)
Lemma decode_unmatched_long (Pow : float -> float -> float) now text :
  FindAllStringSubmatch re text = [] -> (6 <= String.length text)%nat ->
  decode Pow now text = if starts "OK STP" text then StopAcknowledged else Unmatched.
Proof.
  intros H Hlen. rewrite (decode_no_match Pow now _ H). unfold slice_to.
  destruct (Nat.leb_spec 6 (String.length text)); [|lia].
  now rewrite <- (take_eqb_starts "OK STP" text Hlen).
Qed.

(** A line without the pattern and of fewer than six bytes: the slice
    [text[:6]] panics. *)
Lemma decode_unmatched_short (Pow : float -> float -> float) now text :
  FindAllStringSubmatch re text = [] -> (String.length text < 6)%nat ->
  decode Pow now text = Panics (SliceBounds 6 (String.length text)).
Proof.
  intros H Hlen. rewrite (decode_no_match Pow now _ H). unfold slice_to.
  destruct (Nat.leb_spec 6 (String.length text)); [lia|reflexivity].
Qed.

(** A text shorter than the shortest frame holds no match. *)
Lemma short_text_no_match text :
  (String.length text < 6)%nat -> FindAllStringSubmatch re text = [].
Proof.
  intros Hlen. destruct (FindAllStringSubmatch re text) as [|m ms] eqn:H; [reflexivity|].
  assert (Hin : In m (find_all re O text))
    by (unfold FindAllStringSubmatch in H; rewrite H; now left).
  apply find_all_matches in Hin as (whole & caps & rest & pre & _ & -> & Hm).
  apply re_match_is_frame in Hm as (c & h & t & _ & Hw & _).
  rewrite length_append, Hw in Hlen. simpl in Hlen.
  rewrite length_append in Hlen. simpl in Hlen. lia.
Qed.

(** C6, where the code departs from it.  For a line without the pattern the
    loop compares the slice [text[:6]] with "OK STP": on a line of fewer
    than six bytes, such as [hello] or the empty line, the slice expression
    panics; the line is neither logged nor skipped, and the goroutine ends
    (through the deferred function) with the panic. *)
Theorem short_line_panics (Pow : float -> float -> float) :
  let t0 := mkTime 0 0 0 in
  let w := mkWorld false [mkLine "OK STP" false t0; mkLine "OK ID=UD-CO2S" false t0;
                          mkLine "OK STA" false t0; mkLine "hello" false t0;
                          mkLine "CO2=412,HUM=45.3,TMP=23.1" false t0]
                   false [] in
  decode Pow t0 "hello" = Panics (SliceBounds 6 5) /\
  decode Pow t0 "" = Panics (SliceBounds 6 0) /\
  fst (fst (scan_loop Pow [mkLine "hello" false t0;
                           mkLine "CO2=412,HUM=45.3,TMP=23.1" false t0]))
  = LoopPanics (SliceBounds 6 5) /\
  fst (fst (reader Pow w)) = Panicked (SliceBounds 6 5) /\
  latest_after None (snd (reader Pow w)) = None.
Proof. repeat split; vm_compute; reflexivity. Qed.

(** Every line shorter than six bytes makes the loop panic. *)
Lemma decode_short_line (Pow : float -> float -> float) now text :
  (String.length text < 6)%nat ->
  decode Pow now text = Panics (SliceBounds 6 (String.length text)).
Proof.
  intros Hlen. apply decode_unmatched_short; [|assumption].
  now apply short_text_no_match.
Qed.

(** ** Shutdown *)

(** The wait of the handshake and the streaming loop write nothing to the
    port and do not close it. *)
Lemma await_reply_quiet : forall ls,
  writes (snd (await_reply ls)) = [] /\ ~ In Closed (snd (await_reply ls)).
Proof.
  induction ls as [|l ls [IHw IHc]]; simpl.
  - split; [reflexivity|]. intros [H|[]]; discriminate.
  - destruct (done l); [split; [reflexivity|intros [H|[]]; discriminate]|].
    destruct (slice_to (text l) 2) as [p|];
      [|split; [reflexivity|intros [H|[]]; discriminate]].
    destruct (String.eqb p "OK"); [split; [reflexivity|intros [H|[]]; discriminate]|].
    destruct (String.eqb p "NG"); [split; [reflexivity|intros [H|[]]; discriminate]|].
    destruct (await_reply ls) as [[r rest] ev]. simpl in *.
    split; [assumption|]. intros [H|H]; [discriminate|auto].
Qed.






(** ** The endpoint *)

Lemma latest_after_no_store ev init :
  (forall d, ~ In (Stored d) ev) -> latest_after init ev = init.
Proof.
  revert init; induction ev as [|e ev IH]; intros init H; [reflexivity|].
  assert (H' : forall d, ~ In (Stored d) ev) by (intros d Hd; apply (H d); now right).
  destruct e; simpl; try (now apply IH).
  exfalso. apply (H d). now left.
Qed.

Lemma latest_after_last_store ev d ev' init :
  (forall d', ~ In (Stored d') ev') -> latest_after init (ev ++ Stored d :: ev') = Some d.
Proof.
  intros H. revert init; induction ev as [|e ev IH]; intros init.
  - simpl. now apply latest_after_no_store.
  - destruct e; simpl; apply IH.
Qed.

Lemma json_float_finite f : finite f = true -> json_float f = inl (JFloat f).
Proof.
  unfold finite, json_float. intros H. apply andb_true_iff in H as [H1 H2].
  apply negb_true_iff in H1, H2. now rewrite H1, H2.
Qed.

Lemma json_float_refused f : finite f = false -> exists msg, json_float f = inr msg.
Proof.
  unfold finite, json_float. intros H.
  destruct (is_nan f); [eauto|]. destruct (is_infinity f); [|discriminate].
  destruct (f <? 0)%float; eauto.
Qed.

(** C8, as the code has it.  As long as no reading was stored ([latest] is
    [nil]) the endpoint answers 503 with the plain text "no data" and a
    newline, never a reading.  Once readings were stored it answers for the
    last one: 200 with the JSON object of its four fields, co2 (integer),
    humidity and temperature (numbers) and timestamp (the string of the
    ISO8601 layout), when its humidity and temperature are finite; 500 with
    the error of the encoder as plain text when one of them is NaN or
    infinite. *)
Theorem handle_data_responses :
  (forall ev,
     (forall d, ~ In (Stored d) ev) ->
     handle_data (latest_after None ev)
     = mkResponse 503 "text/plain; charset=utf-8" (TextBody ("no data" ++ LF))) /\
  (forall ev d ev',
     (forall d', ~ In (Stored d') ev') ->
     finite (Humidity d) = true -> finite (Temperature d) = true ->
     handle_data (latest_after None (ev ++ Stored d :: ev'))
     = mkResponse 200 "application/json"
         (JSONBody [("co2", JInt (CO2 d));
                    ("humidity", JFloat (Humidity d));
                    ("temperature", JFloat (Temperature d));
                    ("timestamp", JString (Format (Timestamp d) ISO8601))])) /\
  (forall ev d ev',
     (forall d', ~ In (Stored d') ev') ->
     finite (Humidity d) = false \/ finite (Temperature d) = false ->
     exists msg,
       handle_data (latest_after None (ev ++ Stored d :: ev'))
       = mkResponse 500 "text/plain; charset=utf-8" (TextBody (msg ++ LF))).
Proof.
  split; [|split].
  - intros ev H. now rewrite latest_after_no_store.
  - intros ev d ev' H Hh Ht. rewrite latest_after_last_store by assumption.
    unfold handle_data, marshal_Data.
    now rewrite (json_float_finite _ Hh), (json_float_finite _ Ht).
  - intros ev d ev' H Hf. rewrite latest_after_last_store by assumption.
    unfold handle_data, marshal_Data.
    destruct (finite (Humidity d)) eqn:Hh.
    + destruct Hf as [Hf|Hf]; [discriminate|].
      rewrite (json_float_finite _ Hh).
      destruct (json_float_refused _ Hf) as [msg ->]. now exists msg.
    + destruct (json_float_refused _ Hh) as [msg ->]. now exists msg.
Qed.

(** C8, as stated, fails: a frame whose temperature field is 400 digits long
    matches the pattern, [ParseFloat] returns the infinity (its range error
    is discarded), the reading is stored with an infinite temperature, and
    the endpoint answers 500, whatever [math.Pow] computes. *)
Lemma stored_reading_answers_500 :
  ParseFloat (repeat_byte "9" 400) = (infinity, Some ErrRange) /\
  (forall Pow now,
     exists d,
       decode Pow now ("CO2=400,HUM=50,TMP=" ++ repeat_byte "9" 400) = Reading d /\
       Temperature d = infinity /\
       status (handle_data (latest_after None [Stored d])) = 500).
Proof.
  split; [vm_compute; reflexivity|].
  intros Pow now.
  exists (reading_of Pow now "400" "50" (repeat_byte "9" 400)).
  split; [vm_compute; reflexivity|].
  split; [vm_compute; reflexivity|].
  cbn [latest_after]. unfold handle_data, marshal_Data.
  assert (Ht : json_float (Temperature (reading_of Pow now "400" "50" (repeat_byte "9" 400)))
               = inr "json: unsupported value: +Inf") by (vm_compute; reflexivity).
  rewrite Ht.
  destruct (json_float (Humidity (reading_of Pow now "400" "50" (repeat_byte "9" 400))));
    reflexivity.
Qed.

(** ** The calendar *)

Lemma all_from_spec f : forall n z,
  all_from n z f = true -> forall i, z <= i < z + Z.of_nat n -> f i = true.
Proof.
  induction n as [|n IH]; intros z H i Hi; [lia|].
  simpl in H. apply andb_true_iff in H as [Hz Hn].
  destruct (Z.eq_dec i z) as [->|]; [assumption|].
  apply (IH (z + 1) Hn). lia.
Qed.

Lemma cycle_days_ok : all_from (Z.to_nat 146097) 0 cycle_day_ok = true.
Proof. vm_compute. reflexivity. Qed.

Lemma civil_from_days_shift z k :
  civil_from_days (z + 146097 * k)
  = let '(y, m, d) := civil_from_days z in (y + 400 * k, m, d).
Proof.
  unfold civil_from_days.
  replace (z + 146097 * k + 719468) with (z + 719468 + k * 146097) by lia.
  rewrite Z.div_add, Z.mod_add by lia.
  set (doe := (z + 719468) mod 146097).
  set (yoe := (doe - doe / 1460 + doe / 36524 - doe / 146096) / 365).
  set (doy := doe - (365 * yoe + yoe / 4 - yoe / 100)).
  set (mp := (5 * doy + 2) / 153).
  destruct ((if mp <? 10 then mp + 3 else mp - 9) <=? 2); f_equal; f_equal; lia.
Qed.

Lemma days_from_civil_shift y m d k :
  days_from_civil (y + 400 * k) m d = days_from_civil y m d + 146097 * k.
Proof.
  unfold days_from_civil.
  replace (if m <=? 2 then y + 400 * k - 1 else y + 400 * k)
    with ((if m <=? 2 then y - 1 else y) + k * 400) by (destruct (m <=? 2); lia).
  rewrite Z.div_add, Z.mod_add by lia. lia.
Qed.

Lemma isLeap_shift y k : isLeap (y + 400 * k) = isLeap y.
Proof.
  unfold isLeap.
  replace (y + 400 * k) with (y + k * 400) by lia. rewrite Z.mod_add by lia.
  replace (y + k * 400) with (y + (k * 100) * 4) by lia. rewrite Z.mod_add by lia.
  replace (y + k * 100 * 4) with (y + (k * 4) * 100) by lia. rewrite Z.mod_add by lia.
  reflexivity.
Qed.

Lemma daysIn_shift m y k : daysIn m (y + 400 * k) = daysIn m y.
Proof. unfold daysIn. now rewrite isLeap_shift. Qed.

(** Every day has a civil date with a month of the year and a day of that
    month, and the date gives the day back. *)
Lemma civil_date_valid z :
  let '(y, m, d) := civil_from_days z in
  1 <= m <= 12 /\ 1 <= d <= daysIn m y /\ days_from_civil y m d = z.
Proof.
  set (k := (z + 719468) / 146097).
  set (doe := (z + 719468) mod 146097).
  assert (Hz : z = doe - 719468 + 146097 * k).
  { unfold doe, k. pose proof (Z.div_mod (z + 719468) 146097). lia. }
  assert (Hdoe : 0 <= doe < 0 + Z.of_nat (Z.to_nat 146097)).
  { rewrite Z2Nat.id by lia. unfold doe. pose proof (Z.mod_pos_bound (z + 719468) 146097). lia. }
  pose proof (all_from_spec _ _ _ cycle_days_ok doe Hdoe) as Hok.
  unfold cycle_day_ok in Hok.
  rewrite Hz, civil_from_days_shift.
  destruct (civil_from_days (doe - 719468)) as [[y m] d].
  rewrite !andb_true_iff in Hok. destruct Hok as [[[[H1 H2] H3] H4] H5].
  rewrite daysIn_shift, days_from_civil_shift.
  apply Z.leb_le in H1, H2, H3, H4. apply Z.eqb_eq in H5. lia.
Qed.

(** ** Decimal fields *)

Lemma digit_char_digit d :
  0 <= d <= 9 -> is_digit (digit_char d) = true /\ digit_val (digit_char d) = d.
Proof.
  intros H.
  assert (Hd : d = 0 \/ d = 1 \/ d = 2 \/ d = 3 \/ d = 4 \/ d = 5 \/ d = 6 \/ d = 7
               \/ d = 8 \/ d = 9) by lia.
  repeat (destruct Hd as [->|Hd]; [split; reflexivity|]). subst; split; reflexivity.
Qed.

Lemma is_digit_not_sign c :
  is_digit c = true ->
  Ascii.eqb c "-" = false /\ Ascii.eqb c "+" = false /\ Ascii.eqb c "Z" = false.
Proof.
  intros H. repeat split.
  - destruct (Ascii.eqb_spec c "-") as [->|]; [discriminate H|reflexivity].
  - destruct (Ascii.eqb_spec c "+") as [->|]; [discriminate H|reflexivity].
  - destruct (Ascii.eqb_spec c "Z") as [->|]; [discriminate H|reflexivity].
Qed.

Lemma length_digits w : forall u, String.length (digits w u) = w.
Proof.
  induction w as [|w IH]; intros u; simpl; [reflexivity|].
  rewrite length_append, IH. simpl. lia.
Qed.

Lemma all_digits_digits w : forall u, all_bytes is_digit (digits w u) = true.
Proof.
  induction w as [|w IH]; intros u; simpl; [reflexivity|].
  rewrite all_bytes_app, IH. simpl.
  destruct (digit_char_digit (u mod 10)) as [-> _]; [|reflexivity].
  pose proof (Z.mod_pos_bound u 10). lia.
Qed.

Lemma digits_value_app a : forall b acc,
  digits_value (a ++ b) acc =
    match digits_value a acc with
    | Some v => digits_value b v
    | None => None
    end.
Proof.
  induction a as [|c a IH]; intros b acc; simpl; [reflexivity|].
  destruct (is_digit c); [apply IH|reflexivity].
Qed.

(** Reading back a zero-padded field gives the number it was written from. *)
Lemma digits_value_digits w : forall u acc,
  0 <= u < 10 ^ Z.of_nat w ->
  digits_value (digits w u) acc = Some (acc * 10 ^ Z.of_nat w + u).
Proof.
  induction w as [|w IH]; intros u acc Hu.
  - simpl in *. f_equal. lia.
  - rewrite Nat2Z.inj_succ, Z.pow_succ_r in * by lia.
    cbn [digits]. rewrite digits_value_app, IH.
    + cbn [digits_value].
      pose proof (Z.mod_pos_bound u 10 ltac:(lia)).
      destruct (digit_char_digit (u mod 10)) as [-> ->]; [lia|].
      f_equal. pose proof (Z.div_mod u 10). lia.
    + split; [apply Z.div_pos; lia|]. apply Z.div_lt_upper_bound; lia.
Qed.

Lemma take_app_le n : forall a b,
  (n <= String.length a)%nat -> take n (a ++ b) = take n a.
Proof.
  induction n as [|n IH]; intros a b H; [reflexivity|].
  destruct a as [|c a]; [simpl in H; lia|].
  simpl. f_equal. apply IH. simpl in H. lia.
Qed.

Lemma take_length a : take (String.length a) a = a.
Proof. induction a as [|c a IH]; simpl; [reflexivity|now rewrite IH]. Qed.

Lemma drop_app_length a b : drop (String.length a) (a ++ b) = b.
Proof. induction a as [|c a IH]; simpl; [now destruct b|assumption]. Qed.

(** The first [w] of [w + k] digits are the digits of the quotient. *)
Lemma take_digits w k : forall u,
  0 <= u -> take w (digits (w + k) u) = digits w (u / 10 ^ Z.of_nat k).
Proof.
  induction k as [|k IH]; intros u Hu.
  - rewrite Nat.add_0_r, Z.div_1_r.
    rewrite <- (length_digits w u) at 1. apply take_length.
  - rewrite Nat.add_succ_r. cbn [digits].
    rewrite take_app_le by (rewrite length_digits; lia).
    rewrite IH by (apply Z.div_pos; lia).
    rewrite Z.div_div by lia.
    now rewrite Nat2Z.inj_succ, Z.pow_succ_r by lia.
Qed.

Lemma ndigits_le fuel : forall u w,
  0 <= u < 10 ^ Z.of_nat (S w) -> (ndigits fuel u <= S w)%nat.
Proof.
  induction fuel as [|fuel IH]; intros u w Hu; simpl; [lia|].
  destruct (Z.ltb_spec u 10); [lia|].
  destruct w as [|w]; [simpl in Hu; lia|].
  apply le_n_S, IH.
  rewrite Nat2Z.inj_succ, Z.pow_succ_r in Hu by lia.
  split; [apply Z.div_pos; lia|]. apply Z.div_lt_upper_bound; lia.
Qed.

(** A number that fits its field is written as the field wide, no more. *)
Lemma appendInt_fits x w :
  0 <= x < 10 ^ Z.of_nat (S w) -> appendInt x (S w) = digits (S w) x.
Proof.
  intros Hx. unfold appendInt.
  destruct (Z.ltb_spec x 0); [lia|].
  rewrite Z.abs_eq by lia.
  now rewrite Nat.max_l by (apply ndigits_le; assumption).
Qed.

(** [getnum] reads a two-digit field back. *)
Lemma getnum_digits2 u rest fixed :
  0 <= u < 100 -> getnum (digits 2 u ++ rest) fixed = Some (u, rest).
Proof.
  intros Hu. cbn [digits append].
  pose proof (Z.mod_pos_bound u 10 ltac:(lia)).
  pose proof (Z.mod_pos_bound (u / 10) 10 ltac:(lia)).
  unfold getnum.
  destruct (digit_char_digit (u mod 10)) as [-> ->]; [lia|].
  destruct (digit_char_digit (u / 10 mod 10)) as [-> ->]; [lia|].
  f_equal. f_equal.
  pose proof (Z.div_mod u 10). rewrite (Z.mod_small (u / 10) 10); [lia|].
  split; [apply Z.div_pos; lia|]. apply Z.div_lt_upper_bound; lia.
Qed.

(** ** The layout [ISO8601] *)

Lemma chunks_ISO8601 :
  chunks ISO8601
  = [stdLongYear; Literal "-"; stdZeroMonth; Literal "-"; stdZeroDay; Literal "T";
     stdHour; Literal ":"; stdZeroMinute; Literal ":"; stdZeroSecond;
     stdFracSecond0 3; stdISO8601ColonTZ].
Proof. reflexivity. Qed.

(** The text of a time whose year has four digits: fields of fixed width,
    the milliseconds, the zone. *)
Lemma Format_ISO8601 t :
  0 <= nsec t < 1000000000 ->
  0 <= fst (fst (date t)) <= 9999 ->
  -360000 < zoneOffset t < 360000 ->
  Format t ISO8601
  = let '(y, m, d) := date t in
    digits 4 y ++ "-" ++ digits 2 m ++ "-" ++ digits 2 d ++ "T"
      ++ digits 2 (hour t) ++ ":" ++ digits 2 (minute t) ++ ":" ++ digits 2 (second t)
      ++ "." ++ digits 3 (nsec t / 1000000) ++ zone_text (zoneOffset t).
Proof.
  intros Hns Hy Hoff. unfold Format. rewrite chunks_ISO8601.
  cbn [map String.concat format_chunk].
  pose proof (civil_date_valid (abs_sec t / 86400)) as Hd. fold (date t) in Hd.
  destruct (date t) as [[y m] d]. cbn [fst] in Hy. destruct Hd as (Hm & Hd & _).
  assert (Hd31 : daysIn m y <= 31).
  { unfold daysIn. destruct (m =? 2); [destruct (isLeap y); lia|].
    destruct ((m =? 4) || (m =? 6) || (m =? 9) || (m =? 11))%bool; lia. }
  assert (Hh : 0 <= hour t < 100).
  { unfold hour. pose proof (Z.mod_pos_bound (abs_sec t) 86400 ltac:(lia)).
    split; [apply Z.div_pos; lia|]. apply Z.div_lt_upper_bound; lia. }
  assert (Hmi : 0 <= minute t < 100).
  { unfold minute. pose proof (Z.mod_pos_bound (abs_sec t) 3600 ltac:(lia)).
    split; [apply Z.div_pos; lia|]. apply Z.div_lt_upper_bound; lia. }
  assert (Hs : 0 <= second t < 100).
  { unfold second. pose proof (Z.mod_pos_bound (abs_sec t) 60 ltac:(lia)). lia. }
  rewrite (appendInt_fits y 3) by (simpl; lia).
  rewrite (appendInt_fits m 1) by (simpl; lia).
  rewrite (appendInt_fits d 1) by (simpl; lia).
  rewrite (appendInt_fits (hour t) 1) by (simpl; lia).
  rewrite (appendInt_fits (minute t) 1) by (simpl; lia).
  rewrite (appendInt_fits (second t) 1) by (simpl; lia).
  rewrite (appendInt_fits (nsec t) 8) by (simpl; lia).
  change (digits 9 (nsec t)) with (digits (3 + 6) (nsec t)).
  rewrite (take_digits 3 6 (nsec t)) by lia.
  change (10 ^ Z.of_nat 6) with 1000000.
  cbn [append]. repeat f_equal.
  unfold zone_text. destruct (Z.eqb_spec (zoneOffset t) 0) as [H0|H0]; [reflexivity|].
  assert (Hq : Z.abs (Z.quot (zoneOffset t) 60) = Z.abs (zoneOffset t) / 60 /\
               (Z.quot (zoneOffset t) 60 <? 0) = (zoneOffset t <=? -60)).
  { split.
    - Z.to_euclidean_division_equations. lia.
    - destruct (Z.ltb_spec (Z.quot (zoneOffset t) 60) 0);
        destruct (Z.leb_spec (zoneOffset t) (-60)); try reflexivity;
        Z.to_euclidean_division_equations; lia. }
  destruct Hq as [Hq Hsign]. rewrite Hq, Hsign.
  set (a := Z.abs (zoneOffset t)) in *.
  assert (Ha : 0 <= a < 360000) by (unfold a; lia).
  assert (Hz : 0 <= a / 60) by (apply Z.div_pos; lia).
  rewrite Z.quot_div_nonneg, Z.rem_mod_nonneg by lia.
  rewrite Z.div_div by lia. change (60 * 60) with 3600.
  rewrite (appendInt_fits (a / 3600) 1), (appendInt_fits (a / 60 mod 60) 1).
  - destruct (zoneOffset t <=? -60); reflexivity.
  - pose proof (Z.mod_pos_bound (a / 60) 60 ltac:(lia)). simpl. lia.
  - split; [apply Z.div_pos; lia|]. apply Z.div_lt_upper_bound; simpl; lia.
Qed.

(** *** Reading the fields back *)

Lemma slice_to_app p rest : slice_to (p ++ rest) (String.length p) = Some p.
Proof.
  unfold slice_to. rewrite length_append.
  destruct (Nat.leb_spec (String.length p) (String.length p + String.length rest)); [|lia].
  now rewrite take_app_length.
Qed.

Lemma slice_to_app_n p rest n :
  String.length p = n -> slice_to (p ++ rest) n = Some p.
Proof. intros <-. apply slice_to_app. Qed.

Lemma drop_app_n p rest n : String.length p = n -> drop n (p ++ rest) = rest.
Proof. intros <-. apply drop_app_length. Qed.

Lemma atoi_digits p :
  p <> "" -> all_bytes is_digit p = true -> atoi p = digits_value p 0.
Proof.
  destruct p as [|c p]; [easy|]. intros _ H.
  simpl in H. apply andb_true_iff in H as [Hc _].
  destruct (is_digit_not_sign c Hc) as (Hm & Hp & _).
  unfold atoi. now rewrite Hm, Hp.
Qed.

Lemma parse_literal a rest f :
  parse_chunk (Literal a) (String a "" ++ rest) f = Some (f, rest).
Proof. simpl. now rewrite Ascii.eqb_refl. Qed.

Lemma parse_year y rest f :
  0 <= y <= 9999 ->
  parse_chunk stdLongYear (digits 4 y ++ rest) f
  = Some (mkParsed y (p_month f) (p_day f) (p_hour f) (p_min f) (p_sec f)
                   (p_nsec f) (p_zone f), rest).
Proof.
  intros Hy. unfold parse_chunk.
  pose proof (length_digits 4 y) as Hl.
  pose proof (all_digits_digits 4 y) as Hall.
  pose proof (digits_value_digits 4 y 0 ltac:(simpl; lia)) as Hv.
  rewrite (slice_to_app_n _ rest 4 Hl), (drop_app_n _ rest 4 Hl).
  rewrite atoi_digits, Hv; [|intros E; rewrite E in Hl; discriminate|assumption].
  destruct (digits 4 y) as [|c0 p]; [discriminate|].
  simpl in Hall. apply andb_true_iff in Hall as [Hc _].
  cbn [append]. rewrite Hc. do 3 f_equal; lia.
Qed.

Lemma parse_two_digits u rest :
  0 <= u < 100 -> getnum (digits 2 u ++ rest) true = Some (u, rest).
Proof. apply getnum_digits2. Qed.

Lemma parse_frac ms rest f :
  0 <= ms < 1000 ->
  parse_chunk (stdFracSecond0 3) ("." ++ digits 3 ms ++ rest) f
  = Some (mkParsed (p_year f) (p_month f) (p_day f) (p_hour f) (p_min f) (p_sec f)
                   (ms * 1000000) (p_zone f), rest).
Proof.
  intros Hms. unfold parse_chunk.
  pose proof (length_digits 3 ms) as Hl.
  pose proof (all_digits_digits 3 ms) as Hall.
  pose proof (digits_value_digits 3 ms 0 ltac:(simpl; lia)) as Hv.
  assert (Hs : slice_to ("." ++ digits 3 ms ++ rest) 4 = Some ("." ++ digits 3 ms)).
  { rewrite <- append_assoc. apply slice_to_app_n.
    cbn [append String.length]. now rewrite Hl. }
  rewrite Hs.
  change (drop 4 ("." ++ digits 3 ms ++ rest)) with (drop 3 (digits 3 ms ++ rest)).
  rewrite (drop_app_n _ rest 3 Hl).
  change (drop 1 ("." ++ digits 3 ms)) with (digits 3 ms).
  cbn [append]. change (Ascii.eqb "." ".") with true. cbn [orb].
  rewrite atoi_digits, Hv; [|intros E; rewrite E in Hl; discriminate|assumption].
  destruct (Z.ltb_spec (0 * 10 ^ Z.of_nat 3 + ms) 0); [lia|].
  change (10 ^ (9 - Z.of_nat 3)) with 1000000. do 3 f_equal; lia.
Qed.

Lemma parse_zone off f :
  off mod 60 = 0 -> -86400 < off < 86400 ->
  parse_chunk stdISO8601ColonTZ (zone_text off) f
  = Some (mkParsed (p_year f) (p_month f) (p_day f) (p_hour f) (p_min f) (p_sec f)
                   (p_nsec f) (Some off), "").
Proof.
  intros Hmod Hoff. unfold zone_text.
  destruct (Z.eqb_spec off 0) as [->|H0]; [reflexivity|].
  set (a := Z.abs off).
  assert (Ha : 0 < a < 86400 /\ a mod 60 = 0).
  { unfold a. split; [lia|]. destruct (Z.abs_spec off) as [[_ ->]|[_ ->]]; [assumption|].
    Z.to_euclidean_division_equations. lia. }
  destruct Ha as [Ha Ham].
  assert (Hh : 0 <= a / 3600 < 24).
  { split; [apply Z.div_pos; lia|]. apply Z.div_lt_upper_bound; lia. }
  assert (Hm : 0 <= a / 60 mod 60 < 60) by (apply Z.mod_pos_bound; lia).
  assert (Hsum : (a / 3600 * 60 + a / 60 mod 60) * 60 = a)
    by (Z.to_euclidean_division_equations; lia).
  pose proof (parse_two_digits (a / 3600) "" ltac:(lia)) as Hgh.
  pose proof (parse_two_digits (a / 60 mod 60) "" ltac:(lia)) as Hgm.
  cbn [digits append] in Hgh, Hgm.
  unfold parse_chunk.
  destruct (Z.leb_spec off (-60)).
  - cbn [digits append String.length Nat.leb String.get substring drop].
    change (Ascii.eqb "-" "Z") with false. change (Ascii.eqb ":" ":") with true.
    cbn iota. rewrite Hgh, Hgm.
    destruct (Z.gtb_spec (a / 3600) 24); [lia|].
    destruct (Z.gtb_spec (a / 60 mod 60) 60); [lia|].
    cbn [orb]. rewrite Hsum.
    change (Ascii.eqb "-" "+") with false. change (Ascii.eqb "-" "-") with true.
    cbn iota. do 4 f_equal; unfold a; lia.
  - cbn [digits append String.length Nat.leb String.get substring drop].
    change (Ascii.eqb "+" "Z") with false. change (Ascii.eqb ":" ":") with true.
    cbn iota. rewrite Hgh, Hgm.
    destruct (Z.gtb_spec (a / 3600) 24); [lia|].
    destruct (Z.gtb_spec (a / 60 mod 60) 60); [lia|].
    cbn [orb]. rewrite Hsum.
    change (Ascii.eqb "+" "+") with true.
    cbn iota. do 4 f_equal. unfold a.
    assert (0 <= off); [|lia].
    destruct (Z.lt_ge_cases off 0); [|lia].
    exfalso. Z.to_euclidean_division_equations. lia.
Qed.

Lemma parse_month m rest f :
  1 <= m <= 12 ->
  parse_chunk stdZeroMonth (digits 2 m ++ rest) f
  = Some (mkParsed (p_year f) m (p_day f) (p_hour f) (p_min f) (p_sec f)
                   (p_nsec f) (p_zone f), rest).
Proof.
  intros H. unfold parse_chunk, in_range. rewrite parse_two_digits by lia.
  destruct (Z.leb_spec 1 m); [|lia]. destruct (Z.leb_spec m 12); [|lia]. reflexivity.
Qed.

Lemma parse_day d rest f :
  0 <= d < 100 ->
  parse_chunk stdZeroDay (digits 2 d ++ rest) f
  = Some (mkParsed (p_year f) (p_month f) d (p_hour f) (p_min f) (p_sec f)
                   (p_nsec f) (p_zone f), rest).
Proof. intros H. unfold parse_chunk. now rewrite parse_two_digits by lia. Qed.

Lemma parse_hour h rest f :
  0 <= h <= 23 ->
  parse_chunk stdHour (digits 2 h ++ rest) f
  = Some (mkParsed (p_year f) (p_month f) (p_day f) h (p_min f) (p_sec f)
                   (p_nsec f) (p_zone f), rest).
Proof.
  intros H. unfold parse_chunk, in_range. rewrite getnum_digits2 by lia.
  destruct (Z.leb_spec 0 h); [|lia]. destruct (Z.leb_spec h 23); [|lia]. reflexivity.
Qed.

Lemma parse_minute m rest f :
  0 <= m <= 59 ->
  parse_chunk stdZeroMinute (digits 2 m ++ rest) f
  = Some (mkParsed (p_year f) (p_month f) (p_day f) (p_hour f) m (p_sec f)
                   (p_nsec f) (p_zone f), rest).
Proof.
  intros H. unfold parse_chunk, in_range. rewrite parse_two_digits by lia.
  destruct (Z.leb_spec 0 m); [|lia]. destruct (Z.leb_spec m 59); [|lia]. reflexivity.
Qed.

Lemma parse_second s rest f :
  0 <= s <= 59 ->
  parse_chunk stdZeroSecond (digits 2 s ++ rest) f
  = Some (mkParsed (p_year f) (p_month f) (p_day f) (p_hour f) (p_min f) s
                   (p_nsec f) (p_zone f), rest).
Proof.
  intros H. unfold parse_chunk, in_range. rewrite parse_two_digits by lia.
  destruct (Z.leb_spec 0 s); [|lia]. destruct (Z.leb_spec s 59); [|lia]. reflexivity.
Qed.

Lemma parse_chunks_step c cs value f f' value' :
  parse_chunk c value f = Some (f', value') ->
  parse_chunks (c :: cs) value f = parse_chunks cs value' f'.
Proof. intros H. cbn [parse_chunks]. now rewrite H. Qed.

(** The clock of a time adds up to its seconds. *)
Lemma clock_sum t :
  abs_sec t / 86400 * 86400 + hour t * 3600 + minute t * 60 + second t = abs_sec t.
Proof. unfold hour, minute, second. Z.to_euclidean_division_equations. lia. Qed.

Lemma clock_bounds t :
  0 <= hour t <= 23 /\ 0 <= minute t <= 59 /\ 0 <= second t <= 59.
Proof. unfold hour, minute, second. Z.to_euclidean_division_equations. lia. Qed.

(** C9, as the code and [time] have it.  The timestamp of a reading is
    encoded as the JSON string of its text in the layout
    [2006-01-02T15:04:05.000Z07:00]: four digits of year, two of month, day,
    hour, minute and second, three of milliseconds (the nanoseconds cut, not
    rounded) and the zone, [Z] or a signed [hh:mm].  For every instant whose
    year, in its zone, has four digits (0 to 9999) and whose zone offset is
    a whole number of minutes, less than a day, parsing the text with the
    same layout gives the instant back, cut to the millisecond, with its
    offset. *)
Theorem format_parse_roundtrip (t : Time) :
  0 <= nsec t < 1000000000 ->
  0 <= fst (fst (date t)) <= 9999 ->
  zoneOffset t mod 60 = 0 -> -86400 < zoneOffset t < 86400 ->
  MarshalJSON t = JString (Format t ISO8601) /\
  Format t ISO8601
  = (let '(y, m, d) := date t in
     digits 4 y ++ "-" ++ digits 2 m ++ "-" ++ digits 2 d ++ "T"
       ++ digits 2 (hour t) ++ ":" ++ digits 2 (minute t) ++ ":" ++ digits 2 (second t)
       ++ "." ++ digits 3 (nsec t / 1000000) ++ zone_text (zoneOffset t)) /\
  Parse ISO8601 (Format t ISO8601) = Some (truncate_ms t).
Proof.
  intros Hns Hy Hmod Hoff.
  split; [reflexivity|].
  pose proof (Format_ISO8601 t Hns Hy ltac:(lia)) as HF.
  split; [exact HF|]. rewrite HF. clear HF.
  pose proof (civil_date_valid (abs_sec t / 86400)) as Hd. fold (date t) in Hd.
  destruct (date t) as [[y m] d]. cbn [fst] in Hy. destruct Hd as (Hm & Hd & Hback).
  assert (Hd31 : daysIn m y <= 31).
  { unfold daysIn. destruct (m =? 2); [destruct (isLeap y); lia|].
    destruct ((m =? 4) || (m =? 6) || (m =? 9) || (m =? 11))%bool; lia. }
  destruct (clock_bounds t) as (Hh & Hmi & Hs).
  assert (Hms : 0 <= nsec t / 1000000 < 1000).
  { split; [apply Z.div_pos; lia|]. apply Z.div_lt_upper_bound; lia. }
  unfold Parse. rewrite chunks_ISO8601.
  rewrite (parse_chunks_step _ _ _ _ _ _ (parse_year y _ _ Hy));
    cbn [p_year p_month p_day p_hour p_min p_sec p_nsec p_zone].
  rewrite (parse_chunks_step _ _ _ _ _ _ (parse_literal _ _ _)).
  rewrite (parse_chunks_step _ _ _ _ _ _ (parse_month m _ _ Hm));
    cbn [p_year p_month p_day p_hour p_min p_sec p_nsec p_zone].
  rewrite (parse_chunks_step _ _ _ _ _ _ (parse_literal _ _ _)).
  rewrite (parse_chunks_step _ _ _ _ _ _ (parse_day d _ _ ltac:(lia)));
    cbn [p_year p_month p_day p_hour p_min p_sec p_nsec p_zone].
  rewrite (parse_chunks_step _ _ _ _ _ _ (parse_literal _ _ _)).
  rewrite (parse_chunks_step _ _ _ _ _ _ (parse_hour (hour t) _ _ Hh));
    cbn [p_year p_month p_day p_hour p_min p_sec p_nsec p_zone].
  rewrite (parse_chunks_step _ _ _ _ _ _ (parse_literal _ _ _)).
  rewrite (parse_chunks_step _ _ _ _ _ _ (parse_minute (minute t) _ _ Hmi));
    cbn [p_year p_month p_day p_hour p_min p_sec p_nsec p_zone].
  rewrite (parse_chunks_step _ _ _ _ _ _ (parse_literal _ _ _)).
  rewrite (parse_chunks_step _ _ _ _ _ _ (parse_second (second t) _ _ Hs));
    cbn [p_year p_month p_day p_hour p_min p_sec p_nsec p_zone].
  rewrite (parse_chunks_step _ _ _ _ _ _ (parse_frac (nsec t / 1000000) _ _ Hms));
    cbn [p_year p_month p_day p_hour p_min p_sec p_nsec p_zone].
  rewrite (parse_chunks_step _ _ _ _ _ _ (parse_zone (zoneOffset t) _ Hmod Hoff));
    cbn [p_year p_month p_day p_hour p_min p_sec p_nsec p_zone].
  cbn [parse_chunks p_year p_month p_day p_hour p_min p_sec p_nsec p_zone].
  unfold in_range.
  destruct (Z.leb_spec 1 d); [|lia]. destruct (Z.leb_spec d (daysIn m y)); [|lia].
  cbn [andb]. unfold truncate_ms. do 2 f_equal.
  rewrite Hback. pose proof (clock_sum t). unfold abs_sec in *. lia.
Qed.

Lemma format_parse_roundtrip_witness :
  Format (mkTime 1693737296 123456789 32400) ISO8601 = "2023-09-03T19:34:56.123+09:00" /\
  Parse ISO8601 "2023-09-03T19:34:56.123+09:00" = Some (mkTime 1693737296 123000000 32400).
Proof.
  split; [vm_compute; reflexivity|].
  destruct (format_parse_roundtrip (mkTime 1693737296 123456789 32400))
    as (_ & _ & H).
  - cbn [nsec]. lia.
  - vm_compute. split; discriminate.
  - reflexivity.
  - cbn [zoneOffset]. lia.
  - exact H.
Defined.

(** C9, as stated, fails.  The layout writes the zone in hours and minutes:
    under an offset of 19 minutes and 32 seconds (Amsterdam before 1937) the
    instant 0 has the text of the instant 32 under an offset of 19 minutes,
    so no parser recovers both; and the text of the first instant of the
    year 10000 has a year of five digits, which [time.Parse] does not read
    with this layout. *)
Lemma roundtrip_fails_outside :
  let a := mkTime 0 0 1172 in
  let b := mkTime 32 0 1140 in
  (Format a ISO8601 = "1970-01-01T00:19:32.000+00:19" /\
   Format b ISO8601 = "1970-01-01T00:19:32.000+00:19" /\
   Parse ISO8601 (Format a ISO8601) = Some b /\
   ~ same_instant b (truncate_ms a) /\
   forall parse : string -> option Time,
     ~ ((exists x, parse (Format a ISO8601) = Some x /\ same_instant x (truncate_ms a)) /\
        (exists x, parse (Format b ISO8601) = Some x /\ same_instant x (truncate_ms b)))) /\
  Format (mkTime 253402300800 0 0) ISO8601 = "10000-01-01T00:00:00.000Z" /\
  Parse ISO8601 (Format (mkTime 253402300800 0 0) ISO8601) = None.
Proof.
  cbv zeta. repeat split; try (vm_compute; reflexivity).
  - intros [H _]. discriminate H.
  - intros parse [(x & Hx & Hxa & _) (y & Hy & Hyb & _)].
    assert (E : Format (mkTime 32 0 1140) ISO8601 = Format (mkTime 0 0 1172) ISO8601)
      by (vm_compute; reflexivity).
    rewrite E, Hx in Hy. inversion Hy; subst y.
    unfold truncate_ms in Hxa, Hyb. cbn [unixSec] in Hxa, Hyb.
    rewrite Hxa in Hyb. discriminate Hyb.
Qed.

(** ** Runs of the handshake and of the loop *)

Lemma prepareDevice_ready_witness :
  let t0 := mkTime 0 0 0 in
  let w := mkWorld false [mkLine "UD-CO2S" false t0; mkLine "OK STP" false t0;
                          mkLine "OK ID=UD-CO2S" false t0; mkLine "OK STA" false t0;
                          mkLine "CO2=412,HUM=45.3,TMP=23.1" false t0]
                   false [] in
  exists w' ev,
    prepareDevice w = (Return None, w', ev) /\
    lines w' = [mkLine "CO2=412,HUM=45.3,TMP=23.1" false t0] /\
    writes ev = ["STP" ++ CRLF; "ID?" ++ CRLF; "STA" ++ CRLF].
Proof.
  cbv zeta.
  destruct (prepareDevice_ready
              (mkWorld false [mkLine "UD-CO2S" false (mkTime 0 0 0);
                              mkLine "OK STP" false (mkTime 0 0 0);
                              mkLine "OK ID=UD-CO2S" false (mkTime 0 0 0);
                              mkLine "OK STA" false (mkTime 0 0 0);
                              mkLine "CO2=412,HUM=45.3,TMP=23.1" false (mkTime 0 0 0)]
                       false [])
              [mkLine "UD-CO2S" false (mkTime 0 0 0)] (mkLine "OK STP" false (mkTime 0 0 0))
              [] (mkLine "OK ID=UD-CO2S" false (mkTime 0 0 0))
              [] (mkLine "OK STA" false (mkTime 0 0 0))
              [mkLine "CO2=412,HUM=45.3,TMP=23.1" false (mkTime 0 0 0)])
    as (w' & ev & H1 & H2 & H3 & _).
  - constructor.
  - reflexivity.
  - repeat constructor. exists "UD". repeat split; discriminate.
  - constructor.
  - constructor.
  - split; [reflexivity|]. now exists " STP".
  - split; [reflexivity|]. now exists " ID=UD-CO2S".
  - split; [reflexivity|]. now exists " STA".
  - exists w', ev. repeat split; assumption.
Defined.

Lemma prepareDevice_refused_witness :
  let t0 := mkTime 0 0 0 in
  let w := mkWorld false [mkLine "OK STP" false t0; mkLine "NG" false t0;
                          mkLine "OK STA" false t0]
                   false [] in
  exists w' ev,
    prepareDevice w = (Return (Some (ErrCommandFailed "ID?")), w', ev) /\
    lines w' = [mkLine "OK STA" false t0] /\
    writes ev = ["STP" ++ CRLF; "ID?" ++ CRLF].
Proof.
  cbv zeta.
  destruct (prepareDevice_refused
              (mkWorld false [mkLine "OK STP" false (mkTime 0 0 0);
                              mkLine "NG" false (mkTime 0 0 0);
                              mkLine "OK STA" false (mkTime 0 0 0)]
                       false [])
              [] (mkLine "OK STP" false (mkTime 0 0 0))
              [] (mkLine "NG" false (mkTime 0 0 0))
              [mkLine "OK STA" false (mkTime 0 0 0)])
    as (w' & ev & H).
  - constructor.
  - reflexivity.
  - constructor.
  - constructor.
  - split; [reflexivity|]. now exists " STP".
  - split; [reflexivity|]. now exists "".
  - exists w', ev. exact H.
Defined.

Lemma await_reply_short_witness :
  fst (fst (await_reply [mkLine "UD-CO2S" false (mkTime 0 0 0);
                         mkLine "X" false (mkTime 0 0 0);
                         mkLine "OK STP" false (mkTime 0 0 0)]))
  = ReplyPanics (SliceBounds 2 1).
Proof.
  apply (await_reply_short [mkLine "UD-CO2S" false (mkTime 0 0 0)]
                           (mkLine "X" false (mkTime 0 0 0))
                           [mkLine "OK STP" false (mkTime 0 0 0)]).
  - repeat constructor. exists "UD". repeat split; discriminate.
  - reflexivity.
  - cbn. lia.
Defined.

Lemma decode_short_line_witness :
  decode unit_Pow (mkTime 0 0 0) "OK" = Panics (SliceBounds 6 2).
Proof. apply (decode_short_line unit_Pow (mkTime 0 0 0) "OK"). cbn. lia. Defined.

Lemma decode_unmatched_long_witness :
  decode unit_Pow (mkTime 0 0 0) "OK STP" = StopAcknowledged /\
  decode unit_Pow (mkTime 0 0 0) "hello world" = Unmatched.
Proof.
  split.
  - apply (decode_unmatched_long unit_Pow (mkTime 0 0 0) "OK STP"); [reflexivity|cbn; lia].
  - apply (decode_unmatched_long unit_Pow (mkTime 0 0 0) "hello world");
      [reflexivity|cbn; lia].
Defined.

(** * Further properties of the reader, the decoder and the endpoint *)
(** ** The input is read once, in order *)

Lemma scanned_lines (ls : list incoming) :
  scanned (map (fun x => Scanned (text x)) ls) = map text ls.
Proof. induction ls; simpl; congruence. Qed.

Lemma await_reply_consumes : forall ls,
  exists consumed,
    ls = (consumed ++ snd (fst (await_reply ls)))%list /\
    scanned (snd (await_reply ls)) = map text consumed.
Proof.
  induction ls as [|l ls (consumed & Hls & Hsc)]; simpl.
  - now exists [].
  - destruct (done l); [now exists [l]|].
    destruct (slice_to (text l) 2) as [p|]; [|now exists [l]].
    destruct (String.eqb p "OK"); [now exists [l]|].
    destruct (String.eqb p "NG"); [now exists [l]|].
    destruct (await_reply ls) as [[r rest] ev]. simpl in *.
    exists (l :: consumed). simpl. now rewrite <- Hls, Hsc.
Qed.

Lemma port_write_frame bytes w :
  exists ok w',
    port_write bytes w = (ok, w', [Wrote bytes ok]) /\
    lines w' = lines w /\ scan_fails w' = scan_fails w /\ open_fails w' = open_fails w.
Proof.
  unfold port_write. destruct (write_results w) as [|ok rs].
  - exists true, w. repeat split.
  - eexists _, _. repeat split.
Qed.

Lemma send_commands_consumes : forall cmds w,
  exists consumed,
    lines w = (consumed ++ lines (snd (fst (send_commands cmds w))))%list /\
    scanned (snd (send_commands cmds w)) = map text consumed /\
    scan_fails (snd (fst (send_commands cmds w))) = scan_fails w.
Proof.
  induction cmds as [|c cmds IH]; intros w.
  - now exists [].
  - cbn [send_commands].
    destruct (port_write_frame (c ++ CRLF) w) as (ok & w1 & -> & Hl & Hs & _).
    destruct ok; cbn [negb].
    2:{ exists []. simpl. now rewrite Hl, Hs. }
    destruct (await_reply_consumes (lines w1)) as (c1 & Hc1 & Hs1).
    destruct (await_reply (lines w1)) as [[r rest] ev_r]. cbn [fst snd] in Hc1, Hs1.
    cbn [app].
    assert (Hhere : scanned (Logged (" " ++ c) :: Wrote (c ++ CRLF) true
                               :: Slept 100 :: ev_r) = map text c1)
      by (simpl; assumption).
    destruct r.
    1,4: destruct (IH (with_lines w1 rest)) as (c2 & Hc2 & Hs2 & Hf2);
         destruct (send_commands cmds (with_lines w1 rest)) as [[o w3] ev'];
         cbn [fst snd lines with_lines] in *; exists (c1 ++ c2)%list;
         change (Logged (" " ++ c) :: Wrote (c ++ CRLF) true :: Slept 100 :: (ev_r ++ ev')%list)
           with ((Logged (" " ++ c) :: Wrote (c ++ CRLF) true :: Slept 100 :: ev_r) ++ ev')%list;
         rewrite scanned_app, Hhere, Hs2, map_app, <- app_assoc, <- Hc2, <- Hl, Hf2;
         repeat split; assumption.
    all: exists c1; cbn [fst snd lines with_lines]; rewrite <- Hl;
         repeat split; assumption.
Qed.

Lemma scan_loop_consumes (Pow : float -> float -> float) : forall ls,
  exists consumed,
    ls = (consumed ++ snd (fst (scan_loop Pow ls)))%list /\
    scanned (snd (scan_loop Pow ls)) = map text consumed.
Proof.
  induction ls as [|l ls (consumed & Hls & Hsc)]; simpl.
  - now exists [].
  - destruct (done l); [now exists [l]|].
    destruct (decode Pow (now l) (text l)); try (now exists [l]);
      destruct (scan_loop Pow ls) as [[x rest] ev]; simpl in *;
      exists (l :: consumed); simpl; now rewrite <- Hls, Hsc.
Qed.

Lemma reader_body_consumes (Pow : float -> float -> float) w :
  exists consumed,
    lines w = (consumed ++ lines (snd (fst (reader_body Pow w))))%list /\
    scanned (snd (reader_body Pow w)) = map text consumed.
Proof.
  unfold reader_body, prepareDevice.
  destruct (send_commands_consumes commands w) as (c1 & Hc1 & Hs1 & _).
  destruct (send_commands commands w) as [[o w1] ev1]. cbn [fst snd] in Hc1, Hs1.
  assert (H1 : scanned (SetReadTimeout 10000 :: Logged "Prepare device...:" :: ev1)
               = map text c1) by (simpl; assumption).
  destruct o as [[e|]|p]; try (exists c1; split; assumption).
  destruct (scan_loop_consumes Pow (lines w1)) as (c2 & Hc2 & Hs2).
  destruct (scan_loop Pow (lines w1)) as [[x rest] ev2]. cbn [fst snd] in Hc2, Hs2.
  exists (c1 ++ c2)%list.
  assert (Hl : lines w = ((c1 ++ c2) ++ rest)%list) by (now rewrite <- app_assoc, <- Hc2).
  assert (H2 : forall tail, scanned tail = [] ->
            scanned ((SetReadTimeout 10000 :: Logged "Prepare device...:" :: ev1)
                       ++ ev2 ++ tail)%list = map text (c1 ++ c2)).
  { intros tail Ht. now rewrite !scanned_app, H1, Hs2, Ht, app_nil_r, map_app. }
  destruct x; cbn [fst snd lines with_lines].
  - split; [assumption|]. now apply H2.
  - split; [assumption|]. now apply H2.
  - destruct (scan_fails (with_lines w1 rest)); cbn [fst snd lines with_lines];
      (split; [assumption|]).
    + specialize (H2 [] eq_refl). now rewrite app_nil_r in H2.
    + now apply H2.
  - split; [assumption|]. specialize (H2 [] eq_refl). now rewrite app_nil_r in H2.
Qed.

(** Every line of the input is read at most once and in order: the lines a
    run has read, followed by the lines it has left, are the input. *)
Theorem reader_reads_in_order (Pow : float -> float -> float) (w : world) :
  exists consumed,
    lines w = (consumed ++ lines (snd (fst (reader Pow w))))%list /\
    scanned (snd (reader Pow w)) = map text consumed.
Proof.
  unfold reader. destruct (open_fails w); [now exists []|].
  destruct (reader_body_consumes Pow w) as (consumed & Hl & Hs).
  destruct (reader_body Pow w) as [[o w1] ev]. cbn [fst snd] in Hl, Hs.
  unfold deferred.
  destruct (port_write_frame ("STP" ++ CRLF) w1) as (ok & w2 & -> & Hl2 & _).
  exists consumed. cbn [fst snd]. rewrite Hl2. split; [assumption|].
  rewrite scanned_app, Hs. cbn [app scanned]. apply app_nil_r.
Qed.

(** ** The commands of the handshake *)

Lemma send_commands_prefix : forall cmds w,
  exists k,
    writes (snd (send_commands cmds w)) = firstn k (map (fun c => c ++ CRLF) cmds) /\
    (fst (fst (send_commands cmds w)) = Return None -> k = List.length cmds).
Proof.
  induction cmds as [|c cmds IH]; intros w.
  - exists O. split; reflexivity.
  - cbn [send_commands].
    destruct (port_write_frame (c ++ CRLF) w) as (ok & w1 & -> & _).
    destruct ok; cbn [negb].
    2:{ exists 1%nat. split; [reflexivity|discriminate]. }
    pose proof (await_reply_quiet (lines w1)) as [Hq _].
    destruct (await_reply (lines w1)) as [[r rest] ev_r]. cbn [snd] in Hq.
    cbn [app].
    assert (Hhere : writes (Logged (" " ++ c) :: Wrote (c ++ CRLF) true
                              :: Slept 100 :: ev_r) = [c ++ CRLF])
      by (simpl; now rewrite Hq).
    destruct r.
    1,4: destruct (IH (with_lines w1 rest)) as (k & Hk & Hall);
         destruct (send_commands cmds (with_lines w1 rest)) as [[o w3] ev'];
         cbn [fst snd] in *; exists (S k);
         change (Logged (" " ++ c) :: Wrote (c ++ CRLF) true :: Slept 100 :: (ev_r ++ ev')%list)
           with ((Logged (" " ++ c) :: Wrote (c ++ CRLF) true :: Slept 100 :: ev_r) ++ ev')%list;
         rewrite writes_app, Hhere, Hk; split; [reflexivity|];
         intros Ho; simpl; f_equal; now apply Hall.
    all: exists 1%nat; cbn [fst snd]; rewrite Hhere; split; [reflexivity|discriminate].
Qed.

(** Whatever the device answers and however the handshake ends, the bytes
    written are the first commands of STP, ID?, STA, in this order and each
    with its CRLF: no command is skipped, repeated or sent out of order; and
    when the handshake returns [nil] all three were written. *)
Theorem prepareDevice_commands_in_order (w : world) :
  exists k,
    (k <= 3)%nat /\
    writes (snd (prepareDevice w)) = firstn k ["STP" ++ CRLF; "ID?" ++ CRLF; "STA" ++ CRLF] /\
    (fst (fst (prepareDevice w)) = Return None -> k = 3%nat).
Proof.
  unfold prepareDevice.
  destruct (send_commands_prefix commands w) as (k & Hk & Hall).
  destruct (send_commands commands w) as [[o w'] ev]. cbn [fst snd] in *.
  exists (Nat.min k 3). split; [lia|]. split.
  - cbn [writes]. rewrite Hk. cbn [commands map].
    destruct k as [|[|[|[|k]]]]; reflexivity.
  - intros Ho. rewrite (Hall Ho). reflexivity.
Qed.

(** ** Panics come from short lines only *)

Lemma await_reply_no_panic : forall ls p,
  Forall (at_least 2) ls -> fst (fst (await_reply ls)) <> ReplyPanics p.
Proof.
  induction ls as [|l ls IH]; intros p H; simpl; [discriminate|].
  inversion H as [|? ? Hl Hls]; subst.
  destruct (done l); [discriminate|].
  unfold slice_to. unfold at_least in Hl.
  destruct (Nat.leb_spec 2 (String.length (text l))); [|lia].
  destruct (String.eqb _ "OK"); [discriminate|].
  destruct (String.eqb _ "NG"); [discriminate|].
  specialize (IH p Hls). destruct (await_reply ls) as [[r rest] ev]. exact IH.
Qed.

Lemma Forall_suffix {A} (P : A -> Prop) (a b : list A) :
  Forall P (a ++ b) -> Forall P b.
Proof. intros H. apply Forall_app in H. apply H. Qed.

Lemma send_commands_no_panic : forall cmds w p,
  Forall (at_least 2) (lines w) -> fst (fst (send_commands cmds w)) <> Panicked p.
Proof.
  induction cmds as [|c cmds IH]; intros w p H; [discriminate|].
  cbn [send_commands].
  destruct (port_write_frame (c ++ CRLF) w) as (ok & w1 & -> & Hl & _).
  destruct ok; cbn [negb]; [|discriminate].
  rewrite <- Hl in H.
  assert (Hnp : forall q, fst (fst (await_reply (lines w1))) <> ReplyPanics q)
    by (intros q; now apply await_reply_no_panic).
  destruct (await_reply_consumes (lines w1)) as (consumed & Hc & _).
  destruct (await_reply (lines w1)) as [[r rest] ev_r]. cbn [fst snd] in *.
  assert (Hrest : Forall (at_least 2) (lines (with_lines w1 rest))).
  { cbn [lines with_lines]. rewrite Hc in H. now apply Forall_suffix in H. }
  destruct r; try discriminate.
  1,2: specialize (IH (with_lines w1 rest) p Hrest);
       destruct (send_commands cmds (with_lines w1 rest)) as [[o w3] ev']; exact IH.
  exfalso. now apply (Hnp p0).
Qed.

Lemma decode_long_no_panic (Pow : float -> float -> float) now text p :
  (6 <= String.length text)%nat -> decode Pow now text <> Panics p.
Proof.
  intros Hlen.
  destruct (FindAllStringSubmatch re text) as [|m ms] eqn:H.
  - rewrite (decode_unmatched_long Pow now text H Hlen).
    destruct (starts "OK STP" text); discriminate.
  - destruct (decode_first_match Pow now _ _ _ H) as (w & c & h & t & _ & -> & _).
    discriminate.
Qed.

Lemma scan_loop_no_panic (Pow : float -> float -> float) : forall ls p,
  Forall (at_least 6) ls -> fst (fst (scan_loop Pow ls)) <> LoopPanics p.
Proof.
  induction ls as [|l ls IH]; intros p H; simpl; [discriminate|].
  inversion H as [|? ? Hl Hls]; subst.
  destruct (done l); [discriminate|].
  pose proof (fun q => decode_long_no_panic Pow (now l) (text l) q Hl) as Hd.
  specialize (IH p Hls).
  destruct (decode Pow (now l) (text l)); try discriminate;
    try (destruct (scan_loop Pow ls) as [[x rest] ev]; exact IH).
  exfalso. now apply (Hd p0).
Qed.

(** The reader panics on short lines only: when every line of the input has
    six bytes or more, the goroutine ends by a return, never by a panic. *)
Theorem reader_panic_free (Pow : float -> float -> float) (w : world) :
  Forall (at_least 6) (lines w) ->
  exists err, fst (fst (reader Pow w)) = Return err.
Proof.
  intros H. unfold reader.
  destruct (open_fails w); [exists (Some ErrOpen); reflexivity|].
  assert (Hnp : forall p, fst (fst (reader_body Pow w)) <> Panicked p).
  { intros p. unfold reader_body, prepareDevice.
    assert (H2 : Forall (at_least 2) (lines w)).
    { eapply Forall_impl; [|exact H]. unfold at_least. intros a Ha. lia. }
    pose proof (send_commands_no_panic commands w p H2) as Hs.
    destruct (send_commands_consumes commands w) as (c1 & Hc1 & _).
    destruct (send_commands commands w) as [[o w1] ev1]. cbn [fst snd] in *.
    destruct o as [[e|]|q]; try discriminate; [|exact Hs].
    rewrite Hc1 in H. apply Forall_suffix in H.
    pose proof (fun q => scan_loop_no_panic Pow (lines w1) q H) as Hl.
    destruct (scan_loop Pow (lines w1)) as [[x rest] ev2]. cbn [fst] in Hl.
    destruct x; try discriminate.
    - destruct (scan_fails (with_lines w1 rest)); discriminate.
    - exfalso. now apply (Hl p0). }
  destruct (reader_body Pow w) as [[o w1] ev]. cbn [fst] in Hnp.
  destruct (deferred w1) as [w2 ev']. cbn [fst].
  destruct o as [err|p]; [now exists err|]. exfalso. now apply (Hnp p).
Qed.

Lemma reader_panic_free_witness :
  exists err,
    fst (fst (reader unit_Pow
                (mkWorld false [mkLine "OK STP" false (mkTime 0 0 0);
                                mkLine "OK ID=UD-CO2S" false (mkTime 0 0 0);
                                mkLine "OK STA" false (mkTime 0 0 0);
                                mkLine "CO2=412,HUM=45.3,TMP=23.1" false (mkTime 0 0 0)]
                         false []))) = Return err.
Proof.
  apply reader_panic_free. repeat constructor; unfold at_least; cbn; lia.
Defined.

(** ** The handshake without an answer, cancelled, or unable to write *)

Lemma await_reply_all_chatter : forall ls,
  Forall chatter ls ->
  await_reply ls
  = (NoMoreLines, [], (map (fun x => Scanned (text x)) ls ++ [ScanStopped])%list).
Proof.
  induction ls as [|l ls IH]; intros H; [reflexivity|].
  inversion H as [|? ? [Hd (p & Hp & Hok & Hng)] Hls]; subst.
  simpl. rewrite Hd, Hp.
  apply String.eqb_neq in Hok, Hng. rewrite Hok, Hng.
  now rewrite (IH Hls).
Qed.

Lemma send_commands_unanswered : forall cmds w,
  writes_succeed w -> Forall chatter (lines w) ->
  exists w' ev,
    send_commands cmds w = (Return None, w', ev) /\
    lines w' = match cmds with [] => lines w | _ => [] end /\
    writes ev = map (fun c => c ++ CRLF) cmds /\
    scanned ev = match cmds with [] => [] | _ => map text (lines w) end.
Proof.
  induction cmds as [|c cmds IH]; intros w Hw Hc.
  - exists w, [Logged " OK."]. repeat split.
  - destruct (port_write_ok (c ++ CRLF) w Hw) as (w1 & Hpw & Hl1 & _ & Hw1).
    cbn [send_commands]. rewrite Hpw. cbn [negb].
    rewrite Hl1, (await_reply_all_chatter _ Hc).
    destruct (IH (with_lines w1 []) Hw1 (Forall_nil _)) as (w' & ev & -> & Hl & Hwr & Hsc).
    exists w', ((Logged (" " ++ c) :: [Wrote (c ++ CRLF) true]) ++
                Slept 100 :: map (fun x => Scanned (text x)) (lines w) ++ [ScanStopped]
                ++ ev)%list.
    split; [cbn [app]; now rewrite <- !app_assoc|].
    split; [destruct cmds; assumption|].
    cbn [app writes scanned].
    rewrite writes_app, scanned_app, writes_scanned_lines, scanned_lines.
    cbn [app writes scanned]. rewrite Hwr. split; [reflexivity|].
    rewrite Hsc. destruct cmds; cbn [lines with_lines map]; now rewrite app_nil_r.
Qed.

(** When the scanner stops before any line that begins with OK or NG has
    arrived (the device is silent or only chatters), the handshake does not
    fail: the wait for each command ends with the input, all three commands
    are written, and the function returns [nil]. *)
Theorem prepareDevice_unanswered (w : world) :
  writes_succeed w -> Forall chatter (lines w) ->
  exists w' ev,
    prepareDevice w = (Return None, w', ev) /\
    lines w' = [] /\
    writes ev = ["STP" ++ CRLF; "ID?" ++ CRLF; "STA" ++ CRLF] /\
    scanned ev = map text (lines w).
Proof.
  intros Hw Hc. unfold prepareDevice.
  destruct (send_commands_unanswered commands w Hw Hc) as (w' & ev & -> & Hl & Hwr & Hsc).
  exists w', (Logged "Prepare device...:" :: ev). repeat split; assumption.
Qed.

Lemma prepareDevice_unanswered_witness :
  exists w' ev,
    prepareDevice (mkWorld false [mkLine "UD-CO2S" false (mkTime 0 0 0)] true [])
    = (Return None, w', ev) /\
    lines w' = [] /\
    writes ev = ["STP" ++ CRLF; "ID?" ++ CRLF; "STA" ++ CRLF].
Proof.
  destruct (prepareDevice_unanswered
              (mkWorld false [mkLine "UD-CO2S" false (mkTime 0 0 0)] true []))
    as (w' & ev & H1 & H2 & H3 & _).
  - constructor.
  - repeat constructor. exists "UD". repeat split; discriminate.
  - exists w', ev. repeat split; assumption.
Defined.

Lemma await_reply_cancel chat : forall l rest,
  Forall chatter chat -> done l = true ->
  await_reply (chat ++ l :: rest)
  = (SawCanceled, rest, map (fun x => Scanned (text x)) (chat ++ [l])).
Proof.
  induction chat as [|c chat IH]; intros l rest Hc Hd.
  - simpl. now rewrite Hd.
  - inversion Hc as [|? ? [Hd' (p & Hp & Hok & Hng)] Hc']; subst.
    simpl. rewrite Hd', Hp.
    apply String.eqb_neq in Hok, Hng. rewrite Hok, Hng.
    now rewrite (IH l rest Hc' Hd).
Qed.

(** A cancellation observed while the handshake waits for the answer to STP
    ends it with the error "context canceled", distinct from a refused
    command: the line at which it is observed is read but not looked at
    (whatever it holds), the lines after it are left, and no further command
    is written. *)
Theorem prepareDevice_canceled (w : world) chat l rest :
  writes_succeed w -> lines w = (chat ++ l :: rest)%list ->
  Forall chatter chat -> done l = true ->
  exists w' ev,
    prepareDevice w = (Return (Some ErrContextCanceled), w', ev) /\
    lines w' = rest /\
    writes ev = ["STP" ++ CRLF] /\
    scanned ev = map text (chat ++ [l]).
Proof.
  intros Hw Hl Hc Hd. unfold prepareDevice, commands.
  destruct (port_write_ok ("STP" ++ CRLF) w Hw) as (w1 & Hpw & Hl1 & _ & Hw1).
  cbn [send_commands]. rewrite Hpw. cbn [negb].
  rewrite Hl1, Hl, (await_reply_cancel chat l rest Hc Hd).
  eexists _, _. split; [reflexivity|]. split; [reflexivity|].
  cbn [app writes scanned].
  now rewrite writes_scanned_lines, scanned_lines.
Qed.

Lemma prepareDevice_canceled_witness :
  exists w' ev,
    prepareDevice (mkWorld false [mkLine "UD-CO2S" false (mkTime 0 0 0);
                                  mkLine "" true (mkTime 0 0 0);
                                  mkLine "OK STP" false (mkTime 0 0 0)] false [])
    = (Return (Some ErrContextCanceled), w', ev) /\
    lines w' = [mkLine "OK STP" false (mkTime 0 0 0)] /\
    writes ev = ["STP" ++ CRLF].
Proof.
  destruct (prepareDevice_canceled
              (mkWorld false [mkLine "UD-CO2S" false (mkTime 0 0 0);
                              mkLine "" true (mkTime 0 0 0);
                              mkLine "OK STP" false (mkTime 0 0 0)] false [])
              [mkLine "UD-CO2S" false (mkTime 0 0 0)] (mkLine "" true (mkTime 0 0 0))
              [mkLine "OK STP" false (mkTime 0 0 0)])
    as (w' & ev & H1 & H2 & H3 & _).
  - constructor.
  - reflexivity.
  - repeat constructor. exists "UD". repeat split; discriminate.
  - reflexivity.
  - exists w', ev. repeat split; assumption.
Defined.

(** When the port refuses the first write, the reader returns that error
    without reading a line; the deferred function still tries STP once more
    and closes the port. *)
Theorem reader_write_refused (Pow : float -> float -> float) (w : world) rs :
  open_fails w = false -> write_results w = false :: rs ->
  exists w' ok,
    reader Pow w
    = (Return (Some ErrWrite), w',
       [SetReadTimeout 10000; Logged "Prepare device...:"; Logged " STP";
        Wrote ("STP" ++ CRLF) false; Wrote ("STP" ++ CRLF) ok; Slept 100; Closed]) /\
    lines w' = lines w /\
    ok = match rs with [] => true | r :: _ => r end.
Proof.
  intros Ho Hw.
  unfold reader, reader_body, prepareDevice, commands, deferred.
  rewrite Ho. cbn [send_commands]. unfold port_write at 1. rewrite Hw. cbn [negb].
  unfold port_write. cbn [write_results].
  destruct rs as [|r rs]; eexists _, _; repeat split.
Qed.

Lemma reader_write_refused_witness :
  exists w' ok,
    reader unit_Pow (mkWorld false [mkLine "OK STP" false (mkTime 0 0 0)] false [false])
    = (Return (Some ErrWrite), w',
       [SetReadTimeout 10000; Logged "Prepare device...:"; Logged " STP";
        Wrote ("STP" ++ CRLF) false; Wrote ("STP" ++ CRLF) ok; Slept 100; Closed]) /\
    lines w' = [mkLine "OK STP" false (mkTime 0 0 0)].
Proof.
  destruct (reader_write_refused unit_Pow
              (mkWorld false [mkLine "OK STP" false (mkTime 0 0 0)] false [false]) [])
    as (w' & ok & H1 & H2 & _); try reflexivity.
  exists w', ok. split; assumption.
Defined.

(** ** When a line yields a reading, and which *)

Lemma take_drop_while cls : forall s,
  s = take_while cls s ++ drop_while cls s /\
  all_bytes cls (take_while cls s) = true /\
  stops cls (drop_while cls s) = true.
Proof.
  induction s as [|c s (Hs & Ha & Hd)]; [repeat split|].
  simpl. destruct (cls c) eqn:Hc; simpl.
  - rewrite Hc, Ha, <- Hs. repeat split. assumption.
  - rewrite Hc. repeat split.
Qed.

Lemma decode_reading_matches (Pow : float -> float -> float) now text r :
  decode Pow now text = Reading r -> FindAllStringSubmatch re text <> [].
Proof.
  intros H E. rewrite (decode_no_match Pow now text E) in H.
  destruct (slice_to text 6); [destruct (String.eqb _ _)|]; discriminate.
Qed.

(** A line yields a reading exactly when it holds a frame somewhere: the
    text [CO2=], digits, [,HUM=], digits and points, [,TMP=], digits, points
    and minus signs, each field non-empty, with any text before and after.
    In particular a line that holds a frame never panics and is never taken
    for the acknowledgement, however short its surroundings. *)
Theorem decode_reading_iff_frame (Pow : float -> float -> float) now text :
  (exists r, decode Pow now text = Reading r) <->
  (exists pre d h t suf, text = pre ++ frame d h t ++ suf /\ frame_fields d h t).
Proof.
  split.
  - intros [r H]. apply decode_reading_matches in H.
    destruct (FindAllStringSubmatch re text) as [|m ms] eqn:Hf; [easy|].
    assert (Hin : In m (find_all re O text))
      by (unfold FindAllStringSubmatch in Hf; rewrite Hf; now left).
    apply find_all_matches in Hin as (whole & caps & rest & pre & _ & -> & Hm).
    apply re_match_is_frame in Hm as (d & h & t & _ & Hw & Hfields).
    exists pre, d, h, t, rest. split; [|exact Hfields].
    rewrite Hw. unfold frame. now rewrite !append_assoc.
  - intros (pre & d & h & t & suf & -> & (Hd & Hdd) & (Hh & Hhh) & (Ht & Htt)).
    destruct (take_drop_while cls_tmp suf) as (Hs & Ha & Hst).
    assert (Hm : match_here re (frame d h t ++ suf)
                 = Some ([d; h; t ++ take_while cls_tmp suf], drop_while cls_tmp suf)).
    { rewrite <- (re_matches_frame d h (t ++ take_while cls_tmp suf)
                    (drop_while cls_tmp suf)); try easy.
      - unfold frame. rewrite Hs at 1. now rewrite !append_assoc.
      - destruct t; [easy|discriminate].
      - now rewrite all_bytes_app, Htt, Ha. }
    pose proof (find_all_finds re pre _ _ _ Hm) as Hne.
    destruct (find_all re O (pre ++ frame d h t ++ suf)) as [|m ms] eqn:Hf; [easy|].
    destruct (decode_first_match Pow now _ _ _ Hf) as (w & c & h' & t' & _ & -> & _).
    eauto.
Qed.

(** A line that starts with a frame yields the reading of that frame,
    whatever follows it, another frame included; and the temperature field
    is taken greedily: the digits, points and minus signs that follow the
    frame without a gap are part of it. *)
Theorem decode_leading_frame (Pow : float -> float -> float) now d h t suf :
  frame_fields d h t ->
  decode Pow now (frame d h t ++ suf)
  = Reading (reading_of Pow now d h (t ++ take_while cls_tmp suf)).
Proof.
  intros ((Hd & Hdd) & (Hh & Hhh) & (Ht & Htt)).
  destruct (take_drop_while cls_tmp suf) as (Hs & Ha & Hst).
  assert (Hm : match_here re (frame d h t ++ suf)
               = Some ([d; h; t ++ take_while cls_tmp suf], drop_while cls_tmp suf)).
  { rewrite <- (re_matches_frame d h (t ++ take_while cls_tmp suf)
                  (drop_while cls_tmp suf)); try easy.
    - unfold frame. rewrite Hs at 1. now rewrite !append_assoc.
    - destruct t; [easy|discriminate].
    - now rewrite all_bytes_app, Htt, Ha. }
  destruct (find_all_head _ _ _ _ Hm) as (whole & ms & Hf).
  unfold decode. rewrite Hf. reflexivity.
Qed.

Lemma decode_leading_frame_witness :
  decode unit_Pow (mkTime 0 0 0) "CO2=412,HUM=45.3,TMP=23.1-5 CO2=9,HUM=9,TMP=9"
  = Reading (reading_of unit_Pow (mkTime 0 0 0) "412" "45.3" "23.1-5") /\
  ParseFloat "23.1-5" = (0%float, Some ErrSyntax).
Proof.
  split; [|vm_compute; reflexivity].
  apply (decode_leading_frame unit_Pow (mkTime 0 0 0) "412" "45.3" "23.1"
                              "-5 CO2=9,HUM=9,TMP=9").
  repeat split; try discriminate; reflexivity.
Defined.

(** The CO2 value of every reading is a non-negative [int64]: the pattern
    admits no sign in the field, and [ParseInt] saturates. *)
Theorem reading_CO2_range (Pow : float -> float -> float) now text r :
  decode Pow now text = Reading r -> 0 <= CO2 r <= 2 ^ 63 - 1.
Proof.
  intros H. pose proof (decode_reading_matches _ _ _ _ H) as Hne.
  destruct (FindAllStringSubmatch re text) as [|m ms] eqn:Hf; [easy|].
  destruct (decode_first_match Pow now _ _ _ Hf) as (w & c & h & t & _ & Hd & [Hc Hcc] & _).
  rewrite Hd in H. inversion H; subst r. unfold reading_of; cbn [CO2].
  rewrite (ParseInt_digits c Hc Hcc).
  pose proof (decimal_ge c 0 Hcc ltac:(lia)).
  destruct (Z.leb_spec (decimal c 0) (2 ^ 63 - 1)); cbn [fst]; lia.
Qed.

Lemma reading_CO2_range_witness :
  0 <= CO2 (reading_of unit_Pow (mkTime 0 0 0) "99999999999999999999" "1" "2") <= 2 ^ 63 - 1.
Proof.
  apply (reading_CO2_range unit_Pow (mkTime 0 0 0) "CO2=99999999999999999999,HUM=1,TMP=2").
  vm_compute; reflexivity.
Defined.

(** ** What is stored, and what the endpoint can serve *)

Lemma stored_app a b : stored (a ++ b) = (stored a ++ stored b)%list.
Proof.
  induction a as [|e a IH]; simpl; [reflexivity|].
  destruct e; simpl; now rewrite ?IH.
Qed.

Lemma stored_scanned_lines (ls : list incoming) :
  stored (map (fun x => Scanned (text x)) ls) = [].
Proof. induction ls; simpl; auto. Qed.

Lemma await_reply_stores_nothing : forall ls, stored (snd (await_reply ls)) = [].
Proof.
  induction ls as [|l ls IH]; simpl; [reflexivity|].
  destruct (done l); [reflexivity|].
  destruct (slice_to (text l) 2) as [p|]; [|reflexivity].
  destruct (String.eqb p "OK"); [reflexivity|].
  destruct (String.eqb p "NG"); [reflexivity|].
  destruct (await_reply ls) as [[r rest] ev]. exact IH.
Qed.

Lemma send_commands_stores_nothing : forall cmds w,
  stored (snd (send_commands cmds w)) = [].
Proof.
  induction cmds as [|c cmds IH]; intros w; [reflexivity|].
  cbn [send_commands].
  destruct (port_write_frame (c ++ CRLF) w) as (ok & w1 & -> & _).
  destruct ok; cbn [negb]; [|reflexivity].
  pose proof (await_reply_stores_nothing (lines w1)) as Hq.
  destruct (await_reply (lines w1)) as [[r rest] ev_r]. cbn [snd] in Hq.
  destruct r; try (cbn [snd app stored]; assumption).
  all: specialize (IH (with_lines w1 rest));
       destruct (send_commands cmds (with_lines w1 rest)) as [[o w3] ev'];
       cbn [snd] in *; rewrite stored_app, IH, app_nil_r; cbn [app stored]; assumption.
Qed.

(** Every reading the loop stores is the decoding of a line it looked at. *)
Lemma scan_loop_stored (Pow : float -> float -> float) : forall ls d,
  In d (stored (snd (scan_loop Pow ls))) ->
  exists l, In l ls /\ done l = false /\ decode Pow (now l) (text l) = Reading d.
Proof.
  induction ls as [|l ls IH]; simpl; intros d H; [easy|].
  destruct (done l) eqn:Hd; [easy|].
  destruct (decode Pow (now l) (text l)) as [r| | |p] eqn:Hdec; try easy.
  - destruct (scan_loop Pow ls) as [[x rest] ev]. cbn [snd stored] in *.
    destruct H as [<-|H]; [exists l; repeat split; [now left|assumption..]|].
    destruct (IH d H) as (l' & Hin & Hl'). exists l'. split; [now right|assumption].
  - destruct (scan_loop Pow ls) as [[x rest] ev]. cbn [snd stored] in *.
    destruct (IH d H) as (l' & Hin & Hl'). exists l'. split; [now right|assumption].
Qed.

Lemma decode_timestamp (Pow : float -> float -> float) now text r :
  decode Pow now text = Reading r -> Timestamp r = now.
Proof.
  intros H. pose proof (decode_reading_matches _ _ _ _ H) as Hne.
  destruct (FindAllStringSubmatch re text) as [|m ms] eqn:Hf; [easy|].
  destruct (decode_first_match Pow now _ _ _ Hf) as (w & c & h & t & _ & Hd & _).
  rewrite Hd in H. inversion H. reflexivity.
Qed.

Lemma latest_after_stored ev : forall init d,
  latest_after init ev = Some d -> init = Some d \/ In d (stored ev).
Proof.
  induction ev as [|e ev IH]; intros init d H; [now left|].
  destruct e; simpl in *; try (now apply IH).
  destruct (IH _ _ H) as [E|Hin]; [inversion E; right; now left|right; now right].
Qed.

Lemma reader_stored (Pow : float -> float -> float) w d :
  In d (stored (snd (reader Pow w))) ->
  exists l, In l (lines w) /\ done l = false /\ decode Pow (now l) (text l) = Reading d.
Proof.
  unfold reader. destruct (open_fails w); [easy|].
  unfold reader_body, prepareDevice.
  pose proof (send_commands_stores_nothing commands w) as Hs.
  destruct (send_commands_consumes commands w) as (c1 & Hc1 & _).
  destruct (send_commands commands w) as [[o w1] ev1]. cbn [fst snd] in *.
  assert (Hdef : forall w0, stored (snd (deferred w0)) = []).
  { intros w0. unfold deferred.
    destruct (port_write_frame ("STP" ++ CRLF) w0) as (ok & w2 & -> & _). reflexivity. }
  destruct o as [[e|]|p].
  1,3: specialize (Hdef w1); destruct (deferred w1) as [w2 ev'];
       cbn [snd] in *; rewrite stored_app, Hdef; cbn [stored app]; rewrite Hs; easy.
  pose proof (scan_loop_stored Pow (lines w1) d) as Hst.
  destruct (scan_loop Pow (lines w1)) as [[x rest] ev2]. cbn [fst snd] in *.
  assert (H2 : forall tail w0, stored tail = [] ->
            In d (stored (((SetReadTimeout 10000 :: Logged "Prepare device...:" :: ev1)
                             ++ ev2 ++ tail) ++ snd (deferred w0))%list) ->
            exists l, In l (lines w) /\ done l = false /\
                      decode Pow (now l) (text l) = Reading d).
  { intros tail w0 Ht. rewrite !stored_app, Ht, Hdef, !app_nil_r.
    cbn [stored]. rewrite Hs. cbn [app]. intros Hin.
    destruct (Hst Hin) as (l & Hl & Hrest). exists l. split; [|assumption].
    rewrite Hc1. apply in_or_app. now right. }
  destruct x.
  - specialize (H2 [Logged "Reader stopped."] (with_lines w1 rest) eq_refl).
    destruct (deferred (with_lines w1 rest)) as [w2 ev']. exact H2.
  - specialize (H2 [Logged "Reader stopped."] (with_lines w1 rest) eq_refl).
    destruct (deferred (with_lines w1 rest)) as [w2 ev']. exact H2.
  - destruct (scan_fails (with_lines w1 rest)).
    + specialize (H2 [] (with_lines w1 rest) eq_refl). rewrite app_nil_r in H2.
      destruct (deferred (with_lines w1 rest)) as [w2 ev']. exact H2.
    + specialize (H2 [Logged "Reader stopped."] (with_lines w1 rest) eq_refl).
      destruct (deferred (with_lines w1 rest)) as [w2 ev']. exact H2.
  - specialize (H2 [] (with_lines w1 rest) eq_refl). rewrite app_nil_r in H2.
    destruct (deferred (with_lines w1 rest)) as [w2 ev']. exact H2.
Qed.

(** Whatever [latest] holds after a run was decoded from one single line of
    the input that the loop looked at: its four fields (the timestamp is
    the time at which that line was read) come from that line and no
    other, and nothing is stored that no line produced. *)
Theorem latest_from_one_line (Pow : float -> float -> float) (w : world) (d : Data) :
  latest_after None (snd (reader Pow w)) = Some d ->
  exists l,
    In l (lines w) /\ done l = false /\
    decode Pow (now l) (text l) = Reading d /\ Timestamp d = now l.
Proof.
  intros H. apply latest_after_stored in H as [H|H]; [discriminate|].
  destruct (reader_stored Pow w d H) as (l & Hin & Hd & Hdec).
  exists l. repeat split; try assumption.
  now apply (decode_timestamp Pow (now l) (text l)).
Qed.

Lemma latest_from_one_line_witness :
  let l := mkLine "CO2=412,HUM=45.3,TMP=23.1" false (mkTime 1693737296 0 32400) in
  let w := mkWorld false [mkLine "OK STP" false (mkTime 0 0 0);
                          mkLine "OK ID=UD-CO2S" false (mkTime 0 0 0);
                          mkLine "OK STA" false (mkTime 0 0 0); l] false [] in
  exists l',
    In l' (lines w) /\ done l' = false /\
    decode unit_Pow (now l') (text l')
    = Reading (reading_of unit_Pow (mkTime 1693737296 0 32400) "412" "45.3" "23.1").
Proof.
  cbv zeta.
  destruct (latest_from_one_line unit_Pow
              (mkWorld false [mkLine "OK STP" false (mkTime 0 0 0);
                              mkLine "OK ID=UD-CO2S" false (mkTime 0 0 0);
                              mkLine "OK STA" false (mkTime 0 0 0);
                              mkLine "CO2=412,HUM=45.3,TMP=23.1" false
                                     (mkTime 1693737296 0 32400)] false [])
              (reading_of unit_Pow (mkTime 1693737296 0 32400) "412" "45.3" "23.1"))
    as (l' & H1 & H2 & H3 & _).
  - vm_compute; reflexivity.
  - exists l'. repeat split; assumption.
Defined.

(** ** A session without incident *)

Lemma scan_loop_frames (Pow : float -> float -> float) : forall ls,
  Forall (frame_line Pow) ls ->
  exists ev,
    scan_loop Pow ls = (ScanEnded, [], ev) /\
    stored ev = readings Pow ls /\ writes ev = [] /\ scanned ev = map text ls.
Proof.
  induction ls as [|l ls IH]; intros H.
  - exists [ScanStopped]. repeat split.
  - inversion H as [|? ? [Hd [r Hr]] Hls]; subst.
    destruct (IH Hls) as (ev & Hev & Hst & Hw & Hsc).
    exists (Scanned (text l) :: Stored r :: ev).
    cbn [scan_loop]. rewrite Hd, Hr, Hev. unfold readings in *.
    cbn [flat_map stored writes scanned map].
    rewrite Hr, Hst, Hw, Hsc. repeat split.
Qed.

Lemma last_cons_default {A} (l : list A) (a d : A) : last (a :: l) d = last l a.
Proof.
  revert a d. induction l as [|b l IH]; intros a d; [reflexivity|].
  change (last (a :: b :: l) d) with (last (b :: l) d).
  now rewrite (IH b d), (IH b a).
Qed.

Lemma latest_after_last ev : forall init,
  latest_after init ev = last (map Some (stored ev)) init.
Proof.
  induction ev as [|e ev IH]; intros init; [reflexivity|].
  destruct e; simpl; try apply IH.
  rewrite IH. symmetry. apply last_cons_default.
Qed.

Lemma readings_snoc (Pow : float -> float -> float) ls l d :
  decode Pow (now l) (text l) = Reading d ->
  readings Pow (ls ++ [l]) = (readings Pow ls ++ [d])%list.
Proof.
  intros H. unfold readings. rewrite flat_map_app. cbn [flat_map]. now rewrite H.
Qed.

Lemma reader_session_run (Pow : float -> float -> float) (w : world) ok1 ok2 ok3 frames :
  open_fails w = false -> writes_succeed w ->
  lines w = ok1 :: ok2 :: ok3 :: frames ->
  begins "OK" ok1 -> begins "OK" ok2 -> begins "OK" ok3 ->
  Forall (frame_line Pow) frames ->
  exists w' ev,
    reader Pow w
    = (Return (if scan_fails w then Some ErrScanner else None), w', ev) /\
    lines w' = [] /\
    stored ev = readings Pow frames /\
    writes ev = ["STP" ++ CRLF; "ID?" ++ CRLF; "STA" ++ CRLF; "STP" ++ CRLF] /\
    scanned ev = map text (lines w).
Proof.
  intros Ho Hw Hl H1 H2 H3 Hf.
  unfold reader, reader_body, prepareDevice, commands, deferred. rewrite Ho.
  destruct (send_commands_ok "STP" ["ID?"; "STA"] w [] ok1 _ Hw Hl (Forall_nil _) H1)
    as (w1 & Hw1 & Hl1 & Hs1 & ->).
  destruct (send_commands_ok "ID?" ["STA"] w1 [] ok2 _ Hw1 Hl1 (Forall_nil _) H2)
    as (w2 & Hw2 & Hl2 & Hs2 & ->).
  destruct (send_commands_ok "STA" [] w2 [] ok3 _ Hw2 Hl2 (Forall_nil _) H3)
    as (w3 & Hw3 & Hl3 & Hs3 & ->).
  cbn [send_commands]. rewrite Hl3.
  destruct (scan_loop_frames Pow frames Hf) as (ev2 & -> & Hst & Hwr & Hsc).
  assert (Hsf : scan_fails (with_lines w3 []) = scan_fails w)
    by (cbn [scan_fails with_lines]; congruence).
  rewrite Hsf.
  assert (Hw3' : writes_succeed (with_lines w3 [])) by exact Hw3.
  destruct (port_write_ok ("STP" ++ CRLF) (with_lines w3 []) Hw3')
    as (w4 & Hpw & Hl4 & _).
  destruct (scan_fails w); rewrite Hpw; eexists _, _;
    (split; [reflexivity|]); (split; [exact Hl4|]);
    cbn [app map text stored writes scanned];
    rewrite !stored_app, !writes_app, !scanned_app, Hst, Hwr, Hsc, Hl;
    cbn [app map stored writes scanned]; rewrite ?app_nil_r; repeat split.
Qed.

(** A session without incident: the device acknowledges the three commands
    and then sends frames until the scanner stops.  The reader reads every
    line, stores the reading of each frame in order, so that [latest] ends as
    the reading of the last frame, writes the three commands and the final
    STP and nothing else, and returns [nil] when the scanner stopped at the
    end of the input, the scanner's error when it stopped on one. *)
Theorem reader_session (Pow : float -> float -> float) (w : world) ok1 ok2 ok3 frames :
  open_fails w = false -> writes_succeed w ->
  lines w = ok1 :: ok2 :: ok3 :: frames ->
  begins "OK" ok1 -> begins "OK" ok2 -> begins "OK" ok3 ->
  Forall (frame_line Pow) frames ->
  exists w' ev,
    reader Pow w
    = (Return (if scan_fails w then Some ErrScanner else None), w', ev) /\
    lines w' = [] /\
    stored ev = readings Pow frames /\
    latest_after None ev = last (map Some (readings Pow frames)) None /\
    writes ev = ["STP" ++ CRLF; "ID?" ++ CRLF; "STA" ++ CRLF; "STP" ++ CRLF] /\
    scanned ev = map text (lines w).
Proof.
  intros Ho Hw Hl H1 H2 H3 Hf.
  destruct (reader_session_run Pow w ok1 ok2 ok3 frames Ho Hw Hl H1 H2 H3 Hf)
    as (w' & ev & Hr & Hl' & Hst & Hwr & Hsc).
  exists w', ev. repeat split; try assumption.
  now rewrite latest_after_last, Hst.
Qed.

Lemma reader_session_witness :
  let t1 := mkTime 1693737296 0 32400 in
  let t2 := mkTime 1693737297 0 32400 in
  let w := mkWorld false [mkLine "OK STP" false (mkTime 0 0 0);
                          mkLine "OK ID=UD-CO2S" false (mkTime 0 0 0);
                          mkLine "OK STA" false (mkTime 0 0 0);
                          mkLine "CO2=412,HUM=45.3,TMP=23.1" false t1;
                          mkLine "CO2=413,HUM=45.2,TMP=23.0" false t2] false [] in
  exists w' ev,
    reader unit_Pow w = (Return None, w', ev) /\
    latest_after None ev = Some (reading_of unit_Pow t2 "413" "45.2" "23.0").
Proof.
  cbv zeta.
  destruct (reader_session unit_Pow
              (mkWorld false [mkLine "OK STP" false (mkTime 0 0 0);
                              mkLine "OK ID=UD-CO2S" false (mkTime 0 0 0);
                              mkLine "OK STA" false (mkTime 0 0 0);
                              mkLine "CO2=412,HUM=45.3,TMP=23.1" false
                                     (mkTime 1693737296 0 32400);
                              mkLine "CO2=413,HUM=45.2,TMP=23.0" false
                                     (mkTime 1693737297 0 32400)] false [])
              (mkLine "OK STP" false (mkTime 0 0 0))
              (mkLine "OK ID=UD-CO2S" false (mkTime 0 0 0))
              (mkLine "OK STA" false (mkTime 0 0 0))
              [mkLine "CO2=412,HUM=45.3,TMP=23.1" false (mkTime 1693737296 0 32400);
               mkLine "CO2=413,HUM=45.2,TMP=23.0" false (mkTime 1693737297 0 32400)])
    as (w' & ev & Hr & _ & _ & Hlast & _).
  - reflexivity.
  - constructor.
  - reflexivity.
  - split; [reflexivity|]. now exists " STP".
  - split; [reflexivity|]. now exists " ID=UD-CO2S".
  - split; [reflexivity|]. now exists " STA".
  - repeat constructor; eexists; vm_compute; reflexivity.
  - exists w', ev. split; [exact Hr|]. rewrite Hlast. vm_compute. reflexivity.
Defined.

(** ** Which captures [ParseFloat] accepts *)

Lemma digit_not_point c : is_digit c = true -> Ascii.eqb c "." = false.
Proof. intros H. destruct (Ascii.eqb_spec c ".") as [->|]; [discriminate H|reflexivity]. Qed.

Lemma nonempty_true s : nonempty s = true <-> s <> "".
Proof. destruct s; simpl; split; congruence. Qed.

(** Reading through a run of digits keeps the point flag and records that
    digits were seen. *)
Lemma read_digits_run a : forall rest st,
  all_bytes is_digit a = true ->
  exists m f,
    read_digits (a ++ rest) st
    = read_digits rest (mkScan m f (sawdot st) (sawdigits st || nonempty a)).
Proof.
  induction a as [|c a IH]; intros rest st H.
  - exists (mant st), (frac_digits st). simpl. rewrite orb_false_r. now destruct st.
  - simpl in H. apply andb_true_iff in H as [Hc Ha].
    cbn [append read_digits]. rewrite (digit_not_point c Hc), Hc.
    destruct (IH rest (mkScan (mant st * 10 + digit_val c)
                              (if sawdot st then frac_digits st + 1 else frac_digits st)
                              (sawdot st) true) Ha) as (m & f & ->).
    exists m, f. cbn [sawdot sawdigits nonempty]. now rewrite orb_true_r.
Qed.

(** A text read to its end was digits, or digits around the one point that
    had not been seen yet. *)
Lemma read_digits_whole s : forall st st',
  read_digits s st = (st', "") ->
  (all_bytes is_digit s = true /\ sawdigits st' = (sawdigits st || nonempty s)%bool) \/
  (sawdot st = false /\
   exists a b, s = a ++ "." ++ b /\
               all_bytes is_digit a = true /\ all_bytes is_digit b = true /\
               sawdigits st' = (sawdigits st || nonempty a || nonempty b)%bool).
Proof.
  induction s as [|c s IH]; intros st st' H.
  - left. simpl in *. inversion H. now rewrite orb_false_r.
  - cbn [read_digits] in H.
    destruct (Ascii.eqb_spec c ".") as [->|Hc].
    + destruct (sawdot st) eqn:Hdot; [discriminate|].
      apply IH in H as [[Hs Hsd]|[Hdot' _]]; [|discriminate].
      right. split; [reflexivity|]. exists "", s. cbn [sawdigits nonempty] in *.
      repeat split; try assumption. now rewrite orb_false_r.
    + destruct (is_digit c) eqn:Hd; [|discriminate].
      apply IH in H as [[Hs Hsd]|[Hdot (a & b & -> & Ha & Hb & Hsd)]];
        cbn [sawdot sawdigits] in *.
      * left. simpl. rewrite Hd, Hs, Hsd. now rewrite orb_true_r.
      * right. split; [assumption|]. exists (String c a), b.
        simpl. rewrite Hd, Ha, Hb, Hsd. rewrite !orb_true_r. repeat split.
Qed.

Lemma ParseFloat_body (neg : bool) (body : string) :
  snd (let '(st, rest) := read_digits body (mkScan 0 0 false false) in
       if negb (sawdigits st) then (0%float, Some ErrSyntax)
       else
         match rest with
         | String _ _ => (0%float, Some ErrSyntax)
         | EmptyString =>
             let v :=
               match mant st with
               | Zpos m => SF2Prim (nearest_decimal m (frac_digits st))
               | _ => 0%float
               end in
             let v := if neg then (- v)%float else v in
             if is_infinity v then (v, Some ErrRange) else (v, None)
         end) <> Some ErrSyntax
  <-> plain_decimal body.
Proof.
  split.
  - destruct (read_digits body (mkScan 0 0 false false)) as [st rest] eqn:Hr.
    destruct (sawdigits st) eqn:Hsd; cbn [negb]; [|easy].
    destruct rest; [|easy]. intros _.
    apply read_digits_whole in Hr as [[Hs Hd]|[_ (a & b & -> & Ha & Hb & Hd)]];
      cbn [sawdigits orb] in Hd; rewrite Hsd in Hd.
    + left. exists body. repeat split; [|assumption]. now apply nonempty_true.
    + right. exists a, b. repeat split; try assumption.
      symmetry in Hd. apply orb_true_iff in Hd as [Hd|Hd]; [left|right];
        now apply nonempty_true.
  - assert (Hfin : forall st,
              sawdigits st = true ->
              snd (if negb (sawdigits st) then (0%float, Some ErrSyntax)
                   else
                     let v :=
                       match mant st with
                       | Zpos m => SF2Prim (nearest_decimal m (frac_digits st))
                       | _ => 0%float
                       end in
                     let v := if neg then (- v)%float else v in
                     if is_infinity v then (v, Some ErrRange) else (v, None))
              <> Some ErrSyntax).
    { intros st ->. cbn [negb].
      match goal with |- context [is_infinity ?v] => destruct (is_infinity v) end;
        discriminate. }
    intros [(a & Hne & Ha & ->)|(a & b & Ha & Hb & Hne & ->)].
    + rewrite <- (append_nil_r a).
      destruct (read_digits_run a "" (mkScan 0 0 false false) Ha) as (m & f & ->).
      cbn [read_digits sawdot sawdigits orb].
      apply nonempty_true in Hne. 
      apply (Hfin (mkScan m f false (nonempty a))). exact Hne.
    + destruct (read_digits_run a ("." ++ b) (mkScan 0 0 false false) Ha) as (m & f & ->).
      cbn [append read_digits sawdot sawdigits orb mant frac_digits].
      change (Ascii.eqb "." ".") with true. cbn iota.
      rewrite <- (append_nil_r b).
      destruct (read_digits_run b "" (mkScan m f true (nonempty a)) Hb) as (m' & f' & ->).
      cbn [read_digits sawdot sawdigits].
      apply (Hfin (mkScan m' f' true (nonempty a || nonempty b))).
      cbn [sawdigits]. apply orb_true_iff.
      destruct Hne as [Hne|Hne]; [left|right]; now apply nonempty_true.
Qed.

(** On a text of the bytes a capture can hold (digits, points, minus signs)
    [ParseFloat] reports a syntax error, and returns zero, unless the text is
    a decimal number with an optional minus sign in front: digits with at
    most one point and at least one digit.  A second point, a minus sign
    inside or at the end, or no digit at all make the field a zero. *)
Theorem ParseFloat_accepts_iff (s : string) :
  all_bytes cls_tmp s = true ->
  (snd (ParseFloat s) <> Some ErrSyntax <->
   exists body, (s = body \/ s = "-" ++ body) /\ plain_decimal body).
Proof.
  intros Halpha. unfold ParseFloat.
  destruct s as [|c s1].
  - split; [intros H; now contradiction H|].
    intros (body & [<-|E] & [(a & Hne & _ & E')|(a & b & _ & _ & _ & E')]);
      try discriminate; try (now destruct a).
  - destruct (Ascii.eqb_spec c "-") as [->|Hm].
    + rewrite (ParseFloat_body true s1). split.
      * intros H. exists s1. split; [now right|assumption].
      * intros (body & [<-|E] & H).
        -- exfalso. destruct H as [(a & _ & Ha & E)|(a & b & Ha & _ & _ & E)];
             destruct a; try discriminate; inversion E; subst;
             simpl in Ha; discriminate.
        -- now inversion E.
    + assert (Hp : Ascii.eqb c "+" = false).
      { destruct (Ascii.eqb_spec c "+") as [->|]; [discriminate Halpha|reflexivity]. }
      rewrite Hp, (ParseFloat_body false (String c s1)). split.
      * intros H. exists (String c s1). split; [now left|assumption].
      * intros (body & [<-|E] & H); [assumption|].
        inversion E. congruence.
Qed.

Lemma ParseFloat_accepts_iff_witness :
  (snd (ParseFloat "-3.2") <> Some ErrSyntax <->
   exists body, ("-3.2" = body \/ "-3.2" = "-" ++ body) /\ plain_decimal body) /\
  snd (ParseFloat "-3.2") = None.
Proof.
  split; [|vm_compute; reflexivity].
  apply (ParseFloat_accepts_iff "-3.2"). reflexivity.
Defined.

(** ** The text of a timestamp *)

Lemma length_zone_text off :
  String.length (zone_text off) = if off =? 0 then 1%nat else 6%nat.
Proof.
  unfold zone_text. destruct (off =? 0); [reflexivity|].
  rewrite !length_append, !length_digits. now destruct (off <=? -60).
Qed.

(** The text of a timestamp has a fixed width: 24 bytes in UTC and 29 with
    an offset, for every time whose year has four digits. *)
Theorem Format_width (t : Time) :
  0 <= nsec t < 1000000000 ->
  0 <= fst (fst (date t)) <= 9999 ->
  -360000 < zoneOffset t < 360000 ->
  String.length (Format t ISO8601) = if zoneOffset t =? 0 then 24%nat else 29%nat.
Proof.
  intros Hns Hy Hoff. rewrite (Format_ISO8601 t Hns Hy Hoff).
  destruct (date t) as [[y m] d].
  rewrite !length_append, !length_digits, length_zone_text.
  now destruct (zoneOffset t =? 0).
Qed.

Lemma Format_width_witness :
  String.length (Format (mkTime 1693737296 123456789 32400) ISO8601) = 29%nat.
Proof.
  apply (Format_width (mkTime 1693737296 123456789 32400)).
  - cbn [nsec]. lia.
  - vm_compute. split; discriminate.
  - cbn [zoneOffset]. lia.
Defined.

(** The milliseconds are cut, not rounded, and nothing below them is
    written: two times in the same millisecond of the same second, under the
    same offset, have the same text. *)
Theorem Format_same_millisecond (t : Time) (ns : Z) :
  0 <= nsec t < 1000000000 -> 0 <= ns < 1000000000 ->
  0 <= fst (fst (date t)) <= 9999 ->
  -360000 < zoneOffset t < 360000 ->
  ns / 1000000 = nsec t / 1000000 ->
  Format (mkTime (unixSec t) ns (zoneOffset t)) ISO8601 = Format t ISO8601.
Proof.
  intros Hns Hns' Hy Hoff Hms.
  rewrite (Format_ISO8601 t Hns Hy Hoff).
  rewrite (Format_ISO8601 (mkTime (unixSec t) ns (zoneOffset t)) Hns' Hy Hoff).
  unfold date, hour, minute, second, abs_sec. cbn [unixSec nsec zoneOffset].
  now rewrite Hms.
Qed.

Lemma Format_same_millisecond_witness :
  Format (mkTime 1693737296 123999999 0) ISO8601
  = Format (mkTime 1693737296 123000000 0) ISO8601.
Proof.
  apply (Format_same_millisecond (mkTime 1693737296 123000000 0) 123999999).
  - cbn [nsec]. lia.
  - lia.
  - vm_compute. split; discriminate.
  - cbn [zoneOffset]. lia.
  - reflexivity.
Defined.

(** ** From the frame to the endpoint *)

(** After a session without incident that ended with the frame [l], a
    request to the endpoint is answered 200 with the JSON object of the
    reading of [l]: its CO2, its corrected humidity and temperature, and
    the time at which [l] was read, in the ISO8601 layout; provided the two
    numbers are finite. *)
Theorem endpoint_serves_last_frame
    (Pow : float -> float -> float) (w : world) ok1 ok2 ok3 frames l d :
  open_fails w = false -> writes_succeed w ->
  lines w = (ok1 :: ok2 :: ok3 :: frames ++ [l])%list ->
  begins "OK" ok1 -> begins "OK" ok2 -> begins "OK" ok3 ->
  Forall (frame_line Pow) frames ->
  done l = false -> decode Pow (now l) (text l) = Reading d ->
  finite (Humidity d) = true -> finite (Temperature d) = true ->
  handle_data (latest_after None (snd (reader Pow w)))
  = mkResponse 200 "application/json"
      (JSONBody [("co2", JInt (CO2 d));
                 ("humidity", JFloat (Humidity d));
                 ("temperature", JFloat (Temperature d));
                 ("timestamp", JString (Format (now l) ISO8601))]).
Proof.
  intros Ho Hw Hl H1 H2 H3 Hf Hd Hdec Hh Ht.
  assert (Hall : Forall (frame_line Pow) (frames ++ [l])).
  { apply Forall_app. split; [assumption|]. constructor; [|constructor].
    split; [assumption|now exists d]. }
  destruct (reader_session_run Pow w ok1 ok2 ok3 (frames ++ [l]) Ho Hw Hl H1 H2 H3 Hall)
    as (w' & ev & Hr & _ & Hst & _).
  rewrite Hr. cbn [snd].
  rewrite latest_after_last, Hst, (readings_snoc Pow frames l d Hdec).
  rewrite map_app. cbn [map]. rewrite last_last.
  unfold handle_data, marshal_Data.
  rewrite (json_float_finite _ Hh), (json_float_finite _ Ht).
  unfold MarshalJSON. now rewrite (decode_timestamp Pow _ _ _ Hdec).
Qed.

Lemma endpoint_serves_last_frame_witness :
  handle_data
    (latest_after None
       (snd (reader unit_Pow
               (mkWorld false [mkLine "OK STP" false (mkTime 0 0 0);
                               mkLine "OK ID=UD-CO2S" false (mkTime 0 0 0);
                               mkLine "OK STA" false (mkTime 0 0 0);
                               mkLine "CO2=412,HUM=45.3,TMP=23.1" false
                                      (mkTime 1693737296 123456789 32400)] false []))))
  = mkResponse 200 "application/json"
      (JSONBody [("co2", JInt 412);
                 ("humidity", JFloat 45.3);
                 ("temperature", JFloat (23.1 - 4.5));
                 ("timestamp", JString "2023-09-03T19:34:56.123+09:00")]).
Proof.
  rewrite (endpoint_serves_last_frame unit_Pow _
             (mkLine "OK STP" false (mkTime 0 0 0))
             (mkLine "OK ID=UD-CO2S" false (mkTime 0 0 0))
             (mkLine "OK STA" false (mkTime 0 0 0)) []
             (mkLine "CO2=412,HUM=45.3,TMP=23.1" false (mkTime 1693737296 123456789 32400))
             (reading_of unit_Pow (mkTime 1693737296 123456789 32400) "412" "45.3" "23.1")).
  - vm_compute. reflexivity.
  - reflexivity.
  - constructor.
  - reflexivity.
  - split; [reflexivity|]. now exists " STP".
  - split; [reflexivity|]. now exists " ID=UD-CO2S".
  - split; [reflexivity|]. now exists " STA".
  - constructor.
  - reflexivity.
  - vm_compute. reflexivity.
  - vm_compute. reflexivity.
  - vm_compute. reflexivity.
Defined.
